(** * Golem: persistence layer, request executor and history recorder

    A shallow embedding of [storage/db.go], [storage/models.go], the
    [executeRequest] / submit flow of [main.go] and [AddToHistory] of
    [ui/history.go], together with the parts of the environment they run
    against: the SQLite engine behind [database/sql], [encoding/json],
    [net/http] and the wall clock.

    Conventions.
    - A Go [string] is a sequence of bytes: Rocq's [string] of 8-bit [ascii].
    - Go [int] and SQLite INTEGER are 64-bit; values are kept in [Z] and the
      range is checked where a value can leave it (JSON decoding).
    - [time.Time] is kept as the instant it denotes, a [Z] count of
      nanoseconds; the store orders timestamps as instants.
    - A Go [error] is kept as its message.
    - A pointer that may be nil is an [option]; a slice keeps the
      difference between nil and empty.
    - The program is a state transformer over a [World]: the database
      connection, the clock, the files, standard output, the widgets, and
      the answers the driver and the operating system will give to the
      coming calls. Library functions whose text is fixed by the Go release
      or by the outside world (RFC 3339 text of a time, compact JSON text,
      URL parsing, the network, the iteration order of a map) are the
      fields of a [Platform].
    - The reader/writer lock of [DB] serialises calls; the model is
      sequential, so [Lock]/[Unlock] have no counterpart.

    SQLite is modelled as far as the statements of the code use it: rows in
    rowid order, AUTOINCREMENT identities, [LIKE] with its default ASCII
    case folding and its wildcards, [ORDER BY], [LIMIT]/[OFFSET], and the
    foreign key actions of the schema, which run only on a connection that
    has foreign key enforcement switched on. *)

From Stdlib Require Import ZArith NArith Ascii String List Lia Sorted.
From Stdlib Require Import DecimalString DecimalZ.
From stdpp Require Import gmap strings list.

Local Open Scope Z_scope.
Set Warnings "-register-all".

(* ================================================================== *)
(** ** Bytes and UTF-8, as the Go runtime and SQLite read them        *)
(* ================================================================== *)

Definition byte_of (a : ascii) : N := N_of_ascii a.

Definition in_range (lo hi : N) (a : ascii) : bool :=
  ((lo <=? byte_of a) && (byte_of a <=? hi))%N.

(** [unicode/utf8]: the width announced by a leading byte ([first] table);
    0 stands for an invalid leading byte. *)
Definition first_width (a : ascii) : nat :=
  if (byte_of a <? 128)%N then 1
  else if in_range 194 223 a then 2
  else if in_range 224 239 a then 3
  else if in_range 240 244 a then 4
  else 0.

(** [unicode/utf8]: the accept range of the second byte. *)
Definition accept_lo (a : ascii) : N :=
  if (byte_of a =? 224)%N then 160 else if (byte_of a =? 240)%N then 144 else 128.
Definition accept_hi (a : ascii) : N :=
  if (byte_of a =? 237)%N then 159 else if (byte_of a =? 244)%N then 143 else 191.

Definition is_cont (a : ascii) : bool := in_range 128 191 a.

(** [utf8.DecodeRuneInString]: the size of the rune at the head of [s];
    0 stands for the result [(RuneError, 1)] (and for the empty string). *)
Definition rune_width (s : string) : nat :=
  match s with
  | EmptyString => 0
  | String a t =>
      match first_width a, t with
      | 1%nat, _ => 1
      | 2%nat, String a1 _ => if is_cont a1 then 2 else 0
      | 3%nat, String a1 (String a2 _) =>
          if in_range (accept_lo a) (accept_hi a) a1 && is_cont a2 then 3 else 0
      | 4%nat, String a1 (String a2 (String a3 _)) =>
          if in_range (accept_lo a) (accept_hi a) a1 && is_cont a2 && is_cont a3
          then 4 else 0
      | _, _ => 0
      end
  end.

(** U+FFFD in UTF-8. *)
Definition replacement_char : string :=
  String (ascii_of_N 239) (String (ascii_of_N 191) (String (ascii_of_N 189) EmptyString)).

(** [utf8.ValidString]. [pending] counts the bytes of the current rune that
    are still to be stepped over (the loop's [i += size]). *)
Fixpoint utf8_valid_from (pending : nat) (s : string) : bool :=
  match s with
  | EmptyString => true
  | String a t =>
      match pending with
      | S k => utf8_valid_from k t
      | O => match rune_width s with
             | O => false
             | S w => utf8_valid_from w t
             end
      end
  end.

Definition utf8_ValidString (s : string) : bool := utf8_valid_from 0 s.

(** [encoding/json] writes a Go string "coerced to valid UTF-8, replacing
    invalid bytes with the Unicode replacement rune" (the [RuneError], size 1
    branch of its string encoder); reading the text back yields this string. *)
Fixpoint json_coerce_from (pending : nat) (s : string) : string :=
  match s with
  | EmptyString => EmptyString
  | String a t =>
      match pending with
      | S k => String a (json_coerce_from k t)
      | O => match rune_width s with
             | O => replacement_char +:+ json_coerce_from 0 t
             | S w => String a (json_coerce_from w t)
             end
      end
  end.

Definition json_coerce (s : string) : string := json_coerce_from 0 s.

(* ================================================================== *)
(** ** SQLite's LIKE                                                   *)
(* ================================================================== *)

(** [sqlite3Tolower]: ASCII letters only. *)
Definition sqlite3Tolower (a : ascii) : ascii :=
  if in_range 65 90 a then ascii_of_N (byte_of a + 32) else a.















(* ================================================================== *)
(** ** ORDER BY and LIMIT / OFFSET                                     *)
(* ================================================================== *)

Section OrderBy.
Context {A : Type} (le : A → A → bool).

Fixpoint insert_sorted (x : A) (l : list A) : list A :=
  match l with
  | [] => [x]
  | y :: l' => if le x y then x :: l else y :: insert_sorted x l'
  end.

(** Rows come in rowid order; rows that compare equal keep that order (SQL
    leaves the order of such rows open). *)
Definition order_by (l : list A) : list A := foldr insert_sorted [] l.
End OrderBy.

(** [LIMIT n]: a negative [n] means no limit. *)
Definition sql_limit {A} (n : Z) (l : list A) : list A :=
  if n <? 0 then l else take (Z.to_nat n) l.

(** [OFFSET n]: a negative [n] counts as 0. *)
Definition sql_offset {A} (n : Z) (l : list A) : list A := drop (Z.to_nat n) l.

(* ================================================================== *)
(** ** Data model ([storage/models.go], [main.go])                     *)
(* ================================================================== *)

Definition error := string.
Definition Time := Z.

(** The zero [time.Time] (January 1, year 1, UTC) in Unix nanoseconds. *)
Definition zero_Time : Time := -62135596800000000000.


Record Collection := {
  col_ID : Z;
  col_Name : string;
  col_Description : string;
  col_CreatedAt : Time;
}.

(** [CollectionID *int]: [None] is the nil pointer (SQL NULL). *)
Record RequestHistory := {
  ID : Z;
  URL : string;
  Method : string;
  Headers : string;
  Body : string;
  Timestamp : Time;
  ResponseStatus : string;
  ResponseBody : string;
  ResponseHeaders : string;
  ResponseTimeMs : Z;
  ResponseSize : Z;
  IsFavorite : bool;
  CollectionID : option Z;
}.

Record SavedRequest := {
  sr_ID : Z;
  sr_Name : string;
  sr_URL : string;
  sr_Method : string;
  sr_Headers : string;
  sr_Body : string;
  sr_CollectionID : option Z;
  sr_CreatedAt : Time;
}.

Record ResponseHeader := {
  hdr_Key : string;
  hdr_Value : string;
}.

(** [ResponseTime] is a [time.Duration], in nanoseconds. *)
Record ResponseInfo := {
  ri_Body : string;
  ri_Headers : list ResponseHeader;
  ri_Status : string;
  ri_Size : Z;
  ri_ResponseTime : Z;
}.

Definition with_ID (id : Z) (r : RequestHistory) : RequestHistory :=
  {| ID := id; URL := URL r; Method := Method r; Headers := Headers r;
     Body := Body r; Timestamp := Timestamp r;
     ResponseStatus := ResponseStatus r; ResponseBody := ResponseBody r;
     ResponseHeaders := ResponseHeaders r; ResponseTimeMs := ResponseTimeMs r;
     ResponseSize := ResponseSize r; IsFavorite := IsFavorite r;
     CollectionID := CollectionID r |}.

Definition with_CollectionID (c : option Z) (r : RequestHistory) : RequestHistory :=
  {| ID := ID r; URL := URL r; Method := Method r; Headers := Headers r;
     Body := Body r; Timestamp := Timestamp r;
     ResponseStatus := ResponseStatus r; ResponseBody := ResponseBody r;
     ResponseHeaders := ResponseHeaders r; ResponseTimeMs := ResponseTimeMs r;
     ResponseSize := ResponseSize r; IsFavorite := IsFavorite r;
     CollectionID := c |}.

Definition sr_with_ID (id : Z) (r : SavedRequest) : SavedRequest :=
  {| sr_ID := id; sr_Name := sr_Name r; sr_URL := sr_URL r;
     sr_Method := sr_Method r; sr_Headers := sr_Headers r; sr_Body := sr_Body r;
     sr_CollectionID := sr_CollectionID r; sr_CreatedAt := sr_CreatedAt r |}.

(** A Go slice: the nil slice is distinct from an empty one. *)
Inductive slice (A : Type) : Type :=
| nil_slice
| mk_slice (elems : list A).
Arguments nil_slice {A}.
Arguments mk_slice {A} elems.

Definition slice_elems {A} (s : slice A) : list A :=
  match s with nil_slice => [] | mk_slice l => l end.

(** [append(s, x)]: the result is never nil. *)
Definition slice_append {A} (s : slice A) (x : A) : slice A :=
  mk_slice (slice_elems s ++ [x]).

(** [var s []T; for rows.Next() { s = append(s, row) }]. *)
Definition collect_rows {A} (rows : list A) : slice A :=
  foldl slice_append nil_slice rows.

(* ================================================================== *)
(** ** JSON documents                                                  *)
(* ================================================================== *)

(** A JSON value as [encoding/json] reads it: strings are held decoded,
    integer literals as their value, any other number literal as its text. *)
Inductive json : Type :=
| JNull
| JBool (b : bool)
| JInt (n : Z)
| JNumber (literal : string)
| JString (s : string)
| JArray (items : list json)
| JObject (members : list (string * json)).

(** What a file holds, as far as [json.Unmarshal] can tell: text that is not
    JSON, or a JSON value laid out with a line prefix and an indent unit
    (both empty for compact text). *)
Inductive FileData : Type :=
| NotJSON (raw : string)
| JSONText (prefix indent : string) (v : json).

(* ================================================================== *)
(** ** The platform: library functions and the outside world           *)
(* ================================================================== *)

(** What the network does with one request. Instants are nanoseconds after
    the call to [client.Do]. *)
Inductive BodyStream : Type :=
| BodyComplete (body : string) (done_at : N)
| BodyFails (e : error) (failed_at : N)
| BodyStalls.

Inductive Exchange : Type :=
| RoundTripFails (e : error) (failed_at : N)
| NoAnswer
| Answers (headers_at : N) (status : string) (wire : list (string * string))
          (body : BodyStream).

(** [wire] lists the response's header lines in the order received, as
    [net/textproto] delivers them (canonical key, trimmed value). *)

Class Platform := {
  (** [time.Time.MarshalJSON]: the RFC 3339 text, an error outside years
      0..9999. *)
  time_MarshalJSON : Time → option string;
  (** [time.Time.UnmarshalJSON] on the content of a JSON string. *)
  time_UnmarshalJSON : string → option Time;
  (** The compact text [json.Marshal] writes for a JSON value. *)
  json_text : json → string;
  (** [url.Parse]: the error it reports, if any. *)
  url_Parse : string → option error;
  (** The behaviour of the network for a method and a URL. *)
  network : string → string → Exchange;
  (** The order in which a [range] over a header map visits its keys. The
      language leaves it unspecified; each key is visited once. *)
  range_order : gmap string (list string) → list string;
}.

(** [time.Time] reads back the instant it wrote. *)
Definition time_codec_faithful `{Platform} : Prop :=
  ∀ t s, time_MarshalJSON t = Some s → time_UnmarshalJSON s = Some t.


(* ================================================================== *)
(** ** The database file and the SQL statements of the code            *)
(* ================================================================== *)

(** The four tables of [migrate], rows in rowid order, with the
    [sqlite_sequence] counters that AUTOINCREMENT keeps per table.
    [preferences] has [key] as its primary key: a finite map. *)
Record Store := {
  preferences : gmap string (string * Time);
  collections : list Collection;
  request_history : list RequestHistory;
  saved_requests : list SavedRequest;
  seq_collections : Z;
  seq_request_history : Z;
  seq_saved_requests : Z;
}.

Definition empty_Store : Store :=
  {| preferences := ∅; collections := []; request_history := [];
     saved_requests := []; seq_collections := 0; seq_request_history := 0;
     seq_saved_requests := 0 |}.

(** AUTOINCREMENT: one more than the largest rowid the table ever held. *)
Definition next_rowid (seq : Z) (ids : list Z) : Z :=
  Z.max seq (foldr Z.max 0 ids) + 1.

Definition collection_exists (s : Store) (c : option Z) : bool :=
  match c with
  | None => true
  | Some id => bool_decide (id ∈ col_ID <$> collections s)
  end.

Definition fk_violation : error := "FOREIGN KEY constraint failed".

(** The outcome of a statement: the new file content and [LastInsertId]. *)
Definition statement := bool → Time → Store → error + (Store * Z).

(** [INSERT INTO preferences ... ON CONFLICT(key) DO UPDATE SET value =
    excluded.value, updated_at = CURRENT_TIMESTAMP]. *)
Definition sql_upsert_preference (key value : string) : statement :=
  λ _ now s,
    inr ({| preferences := <[key := (value, now)]> (preferences s);
            collections := collections s;
            request_history := request_history s;
            saved_requests := saved_requests s;
            seq_collections := seq_collections s;
            seq_request_history := seq_request_history s;
            seq_saved_requests := seq_saved_requests s |}, 0).

(** [INSERT INTO request_history (url, ..., collection_id) VALUES (...)]:
    every column but [id] comes from [req]. The foreign key on
    [collection_id] is checked only when the connection enforces foreign
    keys. *)
Definition sql_insert_request_history (req : RequestHistory) : statement :=
  λ fk _ s,
    if fk && negb (collection_exists s (CollectionID req)) then inl fk_violation
    else
      let id := next_rowid (seq_request_history s) (ID <$> request_history s) in
      inr ({| preferences := preferences s;
              collections := collections s;
              request_history := request_history s ++ [with_ID id req];
              saved_requests := saved_requests s;
              seq_collections := seq_collections s;
              seq_request_history := id;
              seq_saved_requests := seq_saved_requests s |}, id).

(** [DELETE FROM request_history WHERE id = ?]. *)
Definition sql_delete_request_history (id : Z) : statement :=
  λ _ _ s,
    inr ({| preferences := preferences s;
            collections := collections s;
            request_history :=
              filter (λ r, ID r ≠ id) (request_history s);
            saved_requests := saved_requests s;
            seq_collections := seq_collections s;
            seq_request_history := seq_request_history s;
            seq_saved_requests := seq_saved_requests s |}, 0).

(** [DELETE FROM request_history]. *)
Definition sql_clear_request_history : statement :=
  λ _ _ s,
    inr ({| preferences := preferences s;
            collections := collections s;
            request_history := [];
            saved_requests := saved_requests s;
            seq_collections := seq_collections s;
            seq_request_history := seq_request_history s;
            seq_saved_requests := seq_saved_requests s |}, 0).

(** [INSERT INTO collections (name, description, created_at) VALUES (?, ?,
    CURRENT_TIMESTAMP)]. *)
Definition sql_insert_collection (name description : string) : statement :=
  λ _ now s,
    let id := next_rowid (seq_collections s) (col_ID <$> collections s) in
    inr ({| preferences := preferences s;
            collections := collections s ++
              [{| col_ID := id; col_Name := name;
                  col_Description := description; col_CreatedAt := now |}];
            request_history := request_history s;
            saved_requests := saved_requests s;
            seq_collections := id;
            seq_request_history := seq_request_history s;
            seq_saved_requests := seq_saved_requests s |}, id).

(** [ON DELETE SET NULL] of [request_history.collection_id]. *)
Definition set_null_on_delete (id : Z) (r : RequestHistory) : RequestHistory :=
  if bool_decide (CollectionID r = Some id) then with_CollectionID None r else r.

(** [DELETE FROM collections WHERE id = ?]. The actions the schema declares
    on the two referencing tables ([ON DELETE SET NULL], [ON DELETE CASCADE])
    run only when the connection enforces foreign keys. *)
Definition sql_delete_collection (id : Z) : statement :=
  λ fk _ s,
    inr ({| preferences := preferences s;
            collections := filter (λ c, col_ID c ≠ id) (collections s);
            request_history :=
              if fk then set_null_on_delete id <$> request_history s
              else request_history s;
            saved_requests :=
              if fk then filter (λ r, sr_CollectionID r ≠ Some id) (saved_requests s)
              else saved_requests s;
            seq_collections := seq_collections s;
            seq_request_history := seq_request_history s;
            seq_saved_requests := seq_saved_requests s |}, 0).

(** [INSERT INTO saved_requests (name, ..., collection_id, created_at)
    VALUES (..., CURRENT_TIMESTAMP)]. *)
Definition sql_insert_saved_request (req : SavedRequest) : statement :=
  λ fk now s,
    if fk && negb (collection_exists s (sr_CollectionID req)) then inl fk_violation
    else
      let id := next_rowid (seq_saved_requests s) (sr_ID <$> saved_requests s) in
      inr ({| preferences := preferences s;
              collections := collections s;
              request_history := request_history s;
              saved_requests := saved_requests s ++
                [{| sr_ID := id; sr_Name := sr_Name req; sr_URL := sr_URL req;
                    sr_Method := sr_Method req; sr_Headers := sr_Headers req;
                    sr_Body := sr_Body req;
                    sr_CollectionID := sr_CollectionID req;
                    sr_CreatedAt := now |}];
              seq_collections := seq_collections s;
              seq_request_history := seq_request_history s;
              seq_saved_requests := id |}, id).

(** [DELETE FROM saved_requests WHERE id = ?]. *)
Definition sql_delete_saved_request (id : Z) : statement :=
  λ _ _ s,
    inr ({| preferences := preferences s;
            collections := collections s;
            request_history := request_history s;
            saved_requests := filter (λ r, sr_ID r ≠ id) (saved_requests s);
            seq_collections := seq_collections s;
            seq_request_history := seq_request_history s;
            seq_saved_requests := seq_saved_requests s |}, 0).

(** The queries. *)

(** [ORDER BY timestamp DESC]. *)
Definition newer_first (a b : RequestHistory) : bool := Timestamp b <=? Timestamp a.

(** [SELECT ... FROM request_history ORDER BY timestamp DESC LIMIT ? OFFSET ?]. *)
Definition sql_select_history (limit offset : Z) (s : Store) : list RequestHistory :=
  sql_limit limit (sql_offset offset (order_by newer_first (request_history s))).



(** [ORDER BY name], under the BINARY collation. *)
Definition sr_by_name (a b : SavedRequest) : bool := String.leb (sr_Name a) (sr_Name b).
Definition col_by_name (a b : Collection) : bool := String.leb (col_Name a) (col_Name b).

(** [SELECT ... FROM saved_requests WHERE collection_id = ? ORDER BY name] and
    [... WHERE collection_id IS NULL ORDER BY name]. *)
Definition sql_select_saved_requests (c : option Z) (s : Store) : list SavedRequest :=
  order_by sr_by_name (filter (λ r, sr_CollectionID r = c) (saved_requests s)).

(** [SELECT ... FROM saved_requests WHERE id = ?]. *)
Definition sql_select_saved_request (id : Z) (s : Store) : option SavedRequest :=
  head (filter (λ r, sr_ID r = id) (saved_requests s)).

(** [SELECT id, name, description, created_at FROM collections ORDER BY name]. *)
Definition sql_select_collections (s : Store) : list Collection :=
  order_by col_by_name (collections s).

(* ================================================================== *)
(** ** The running program: state, outcomes, sequencing                *)
(* ================================================================== *)

(** The connection [sql.Open] returns: the database file, the connection's
    [foreign_keys] pragma, and the pending content of an open transaction. *)
Record Conn := {
  db_file : Store;
  foreign_keys : bool;
  txn : option Store;
}.

(** The widgets of [main.go] the submit flow writes, and the list cache of
    [HistoryPanel]. *)
Record UI := {
  responseArea : string;
  statusLabel : string;
  sizeLabel : string;
  timeLabel : string;
  hp_history : list RequestHistory;
}.

(** [faults] is what the driver and the operating system will answer to the
    coming calls, one entry per call: [None] lets the call through, [Some e]
    makes it fail with [e]; once the list is used up every call goes through. *)
Record World := {
  conn : Conn;
  now : Time;
  faults : list (option error);
  files : gmap string FileData;
  stdout : list string;
  ui : UI;
}.

Definition set_conn (c : Conn) (w : World) : World :=
  {| conn := c; now := now w; faults := faults w; files := files w;
     stdout := stdout w; ui := ui w |}.
Definition set_now (t : Time) (w : World) : World :=
  {| conn := conn w; now := t; faults := faults w; files := files w;
     stdout := stdout w; ui := ui w |}.
Definition set_faults (f : list (option error)) (w : World) : World :=
  {| conn := conn w; now := now w; faults := f; files := files w;
     stdout := stdout w; ui := ui w |}.
Definition set_files (f : gmap string FileData) (w : World) : World :=
  {| conn := conn w; now := now w; faults := faults w; files := f;
     stdout := stdout w; ui := ui w |}.
Definition set_stdout (o : list string) (w : World) : World :=
  {| conn := conn w; now := now w; faults := faults w; files := files w;
     stdout := o; ui := ui w |}.
Definition set_ui (u : UI) (w : World) : World :=
  {| conn := conn w; now := now w; faults := faults w; files := files w;
     stdout := stdout w; ui := u |}.

Definition set_db_file (s : Store) (w : World) : World :=
  set_conn {| db_file := s; foreign_keys := foreign_keys (conn w);
              txn := txn (conn w) |} w.
Definition set_txn (t : option Store) (w : World) : World :=
  set_conn {| db_file := db_file (conn w); foreign_keys := foreign_keys (conn w);
              txn := t |} w.

Definition tables (w : World) : Store := db_file (conn w).

(** The wall clock moves on by [dt] nanoseconds; it never runs backwards. *)
Definition elapse (dt : N) (w : World) : World := set_now (now w + Z.of_N dt) w.

(** How a Go call ends: a value with a nil error, a non-nil error, or a
    run-time panic. *)
Inductive outcome (A : Type) : Type :=
| Ok (a : A)
| Err (e : error)
| Panic (msg : string).
Arguments Ok {A} a.
Arguments Err {A} e.
Arguments Panic {A} msg.

Definition M (A : Type) : Type := World → outcome A * World.

Definition ret {A} (a : A) : M A := λ w, (Ok a, w).
Definition fail {A} (e : error) : M A := λ w, (Err e, w).
Definition panic {A} (msg : string) : M A := λ w, (Panic msg, w).

(** [v, err := f(); if err != nil { return err }; ...]. *)
Definition bind {A B} (m : M A) (k : A → M B) : M B :=
  λ w, match m w with
       | (Ok a, w') => k a w'
       | (Err e, w') => (Err e, w')
       | (Panic p, w') => (Panic p, w')
       end.

Notation "'let*' x ':=' m 'in' k" := (bind m (λ x, k))
  (at level 10, x binder, m at level 100, k at level 200).
Notation "m '>>' k" := (bind m (λ _, k))
  (at level 100, k at level 200, right associativity).

(** [defer d(); body]: [d] runs on every way out of [body], its result
    discarded. *)
Definition deferred {A} (d : World → World) (body : M A) : M A :=
  λ w, let '(r, w') := body w in (r, d w').

(** One call into the driver or the operating system. *)
Definition io_call : M unit :=
  λ w, match faults w with
       | [] => (Ok tt, w)
       | None :: rest => (Ok tt, set_faults rest w)
       | Some e :: rest => (Err e, set_faults rest w)
       end.

(** [time.Now()]. *)
Definition time_Now : M Time := λ w, (Ok (now w), w).

Definition newline : string := String (ascii_of_N 10) EmptyString.

(** [fmt.Printf]: the text goes to standard output. *)
Definition fmt_Printf (line : string) : M unit :=
  λ w, (Ok tt, set_stdout (stdout w ++ [line]) w).

(* ------------------------------------------------------------------ *)
(** *** [storage/db.go]                                                *)
(* ------------------------------------------------------------------ *)

(** [sql.Open("sqlite", dbPath)]: the data source name carries no
    [_pragma] parameter, so the connection has SQLite's defaults; foreign
    key enforcement is off unless [PRAGMA foreign_keys = ON] is issued on the
    connection. *)
Definition sql_Open (file : Store) : Conn :=
  {| db_file := file; foreign_keys := false; txn := None |}.

(** [db.migrate]: one [Exec] of the schema. Every statement of it is
    [CREATE ... IF NOT EXISTS]: the rows are left as they are, and no
    statement of it touches the connection's pragmas. *)
Definition migrate : M unit := io_call.

(** [initDB], on the database file found at [getDBPath()]. *)
Definition initDB (file : Store) : M unit :=
  λ w, let w1 := set_conn (sql_Open file) w in
       match migrate w1 with
       | (Ok _, w2) => (Ok tt, w2)
       | (Err e, w2) => (Err ("failed to migrate database: " +:+ e), w2)
       | (Panic p, w2) => (Panic p, w2)
       end.

(** [db.Exec]: run a statement on the connection. *)
Definition db_Exec (st : statement) : M Z :=
  io_call >>
  λ w, match st (foreign_keys (conn w)) (now w) (tables w) with
       | inl e => (Err e, w)
       | inr (s', id) => (Ok id, set_db_file s' w)
       end.

(** [db.Query] / [db.QueryRow] followed by the [Scan] loop. *)
Definition db_Query {A} (q : Store → A) : M A :=
  io_call >> λ w, (Ok (q (tables w)), w).

(** [db.Begin]. *)
Definition db_Begin : M unit :=
  io_call >> λ w, (Ok tt, set_txn (Some (tables w)) w).

(** [tx.Exec]: the statement works on the transaction's pending content. *)
Definition tx_Exec (st : statement) : M Z :=
  io_call >>
  λ w, match txn (conn w) with
       | None => (Err "sql: transaction has already been committed or rolled back", w)
       | Some pending =>
           match st (foreign_keys (conn w)) (now w) pending with
           | inl e => (Err e, w)
           | inr (s', id) => (Ok id, set_txn (Some s') w)
           end
       end.

(** [tx.Commit]: the pending content becomes the file's; when the driver
    reports a failure the file stays as it was. Either way the transaction
    is over. *)
Definition tx_Commit : M unit :=
  λ w, match txn (conn w) with
       | None => (Err "sql: transaction has already been committed or rolled back", w)
       | Some pending =>
           match io_call w with
           | (Ok _, w') => (Ok tt, set_txn None (set_db_file pending w'))
           | (Err e, w') => (Err e, set_txn None w')
           | (Panic p, w') => (Panic p, set_txn None w')
           end
       end.

(** [tx.Rollback]: drops the pending content; nothing to do once the
    transaction is over. *)
Definition tx_Rollback (w : World) : World := set_txn None w.

(* ------------------------------------------------------------------ *)
(** *** [storage/models.go]: preferences, history, collections,        *)
(**     saved requests                                                 *)
(* ------------------------------------------------------------------ *)


Definition SetPreference (key value : string) : M unit :=
  db_Exec (sql_upsert_preference key value) >> ret tt.

Definition GetAllPreferences : M (gmap string string) :=
  db_Query (λ s, fst <$> preferences s).

(** The code writes the new identity through the pointer; the model hands
    the updated entry back. *)
Definition SaveRequestHistory (req : RequestHistory) : M RequestHistory :=
  let* id := db_Exec (sql_insert_request_history req) in
  ret (with_ID id req).

Definition GetRequestHistory (limit offset : Z) : M (slice RequestHistory) :=
  db_Query (λ s, collect_rows (sql_select_history limit offset s)).


Definition DeleteRequestHistory (id : Z) : M unit :=
  db_Exec (sql_delete_request_history id) >> ret tt.

Definition ClearRequestHistory : M unit :=
  db_Exec sql_clear_request_history >> ret tt.

Definition CreateCollection (name description : string) : M Collection :=
  let* id := db_Exec (sql_insert_collection name description) in
  let* t := time_Now in
  ret {| col_ID := id; col_Name := name; col_Description := description;
         col_CreatedAt := t |}.

Definition GetCollections : M (slice Collection) :=
  db_Query (λ s, collect_rows (sql_select_collections s)).

Definition DeleteCollection (id : Z) : M unit :=
  db_Exec (sql_delete_collection id) >> ret tt.

Definition SaveRequest (req : SavedRequest) : M SavedRequest :=
  let* id := db_Exec (sql_insert_saved_request req) in
  ret (sr_with_ID id req).

Definition GetSavedRequests (collectionID : option Z) : M (slice SavedRequest) :=
  db_Query (λ s, collect_rows (sql_select_saved_requests collectionID s)).

Definition GetSavedRequest (id : Z) : M SavedRequest :=
  let* found := db_Query (sql_select_saved_request id) in
  match found with
  | None => fail "saved request not found"
  | Some req => ret req
  end.

Definition DeleteSavedRequest (id : Z) : M unit :=
  db_Exec (sql_delete_saved_request id) >> ret tt.

(** [os.WriteFile] and [os.ReadFile]. *)
Definition writeFile (filepath : string) (data : FileData) : M unit :=
  io_call >> λ w, (Ok tt, set_files (<[filepath := data]> (files w)) w).

Definition readFile (filepath : string) : M FileData :=
  io_call >>
  λ w, match files w !! filepath with
       | Some data => (Ok data, w)
       | None => (Err ("open " +:+ filepath +:+ ": no such file or directory"), w)
       end.

(* ------------------------------------------------------------------ *)
(** *** [encoding/json] on [[]*RequestHistory]                         *)
(* ------------------------------------------------------------------ *)

Definition min_int : Z := - 2 ^ 63.
Definition max_int : Z := 2 ^ 63 - 1.
Definition is_int (n : Z) : bool := (min_int <=? n) && (n <=? max_int).

Fixpoint fold_ascii (s : string) : string :=
  match s with
  | EmptyString => EmptyString
  | String a t => String (sqlite3Tolower a) (fold_ascii t)
  end.

(** The [omitempty] option on a string field. *)
Definition omitempty (name value : string) : list (string * json) :=
  if String.eqb value "" then [] else [(name, JString (json_coerce value))].

(** The [omitempty] option on [CollectionID *int]. *)
Definition omitempty_ptr (name : string) (value : option Z) : list (string * json) :=
  match value with
  | None => []
  | Some n => [(name, JInt n)]
  end.

(** The members [json.Marshal] writes for a [RequestHistory], from its
    struct tags and in field order; [ts] is the text of the timestamp. *)
Definition row_members (r : RequestHistory) (ts : string) : list (string * json) :=
  [("id", JInt (ID r));
   ("url", JString (json_coerce (URL r)));
   ("method", JString (json_coerce (Method r)))]
  ++ omitempty "headers" (Headers r)
  ++ omitempty "body" (Body r)
  ++ [("timestamp", JString ts)]
  ++ omitempty "response_status" (ResponseStatus r)
  ++ omitempty "response_body" (ResponseBody r)
  ++ omitempty "response_headers" (ResponseHeaders r)
  ++ [("response_time_ms", JInt (ResponseTimeMs r));
      ("response_size", JInt (ResponseSize r));
      ("is_favorite", JBool (IsFavorite r))]
  ++ omitempty_ptr "collection_id" (CollectionID r).

Section Codec.
Context `{Platform}.

(** [json.Marshal] on a [*RequestHistory]; the timestamp is written by
    [time.Time]'s own marshaler, which can refuse. *)
Definition marshal_RequestHistory (r : RequestHistory) : option json :=
  ts ← time_MarshalJSON (Timestamp r);
  Some (JObject (row_members r ts)).

(** [json.MarshalIndent(history, prefix, indent)]: a nil slice is written
    as [null], any other slice as an array. *)
Definition json_MarshalIndent (history : slice RequestHistory)
    (prefix indent : string) : error + FileData :=
  match history with
  | nil_slice => inr (JSONText prefix indent JNull)
  | mk_slice rows =>
      match mapM marshal_RequestHistory rows with
      | Some objs => inr (JSONText prefix indent (JArray objs))
      | None => inl "json: error calling MarshalJSON for type time.Time"
      end
  end.

(** Decoding one member into a field: [null] leaves a non-pointer field as
    it is, a value of the wrong JSON type is an error. *)
Definition decode_string (v : json) (old : string) : option string :=
  match v with JString s => Some s | JNull => Some old | _ => None end.
Definition decode_int (v : json) (old : Z) : option Z :=
  match v with
  | JInt n => if is_int n then Some n else None
  | JNull => Some old
  | _ => None
  end.
Definition decode_bool (v : json) (old : bool) : option bool :=
  match v with JBool b => Some b | JNull => Some old | _ => None end.
Definition decode_time (v : json) (old : Time) : option Time :=
  match v with
  | JString s => time_UnmarshalJSON s
  | JNull => Some old
  | _ => None
  end.
Definition decode_ptr_int (v : json) (old : option Z) : option (option Z) :=
  match v with
  | JInt n => if is_int n then Some (Some n) else None
  | JNull => Some None
  | _ => None
  end.

(** The members of an object that address the field tagged [name], in
    document order. The decoder matches keys up to letter case. *)
Definition members_of (name : string) (members : list (string * json)) : list json :=
  snd <$> filter (λ kv, fold_ascii kv.1 = name) members.

(** Members are decoded in document order: a later one overwrites. *)
Definition decode_field {A} (dec : json → A → option A) (zero : A) (name : string)
    (members : list (string * json)) : option A :=
  foldl (λ acc v, acc ≫= dec v) (Some zero) (members_of name members).

(** A JSON object decoded into a fresh [RequestHistory]; members with other
    keys are skipped. *)
Definition unmarshal_RequestHistory (members : list (string * json))
  : option RequestHistory :=
  id ← decode_field decode_int 0 "id" members;
  url ← decode_field decode_string "" "url" members;
  method ← decode_field decode_string "" "method" members;
  headers ← decode_field decode_string "" "headers" members;
  body ← decode_field decode_string "" "body" members;
  timestamp ← decode_field decode_time zero_Time "timestamp" members;
  status ← decode_field decode_string "" "response_status" members;
  rbody ← decode_field decode_string "" "response_body" members;
  rheaders ← decode_field decode_string "" "response_headers" members;
  ms ← decode_field decode_int 0 "response_time_ms" members;
  size ← decode_field decode_int 0 "response_size" members;
  favorite ← decode_field decode_bool false "is_favorite" members;
  collection ← decode_field decode_ptr_int None "collection_id" members;
  Some {| ID := id; URL := url; Method := method; Headers := headers;
          Body := body; Timestamp := timestamp; ResponseStatus := status;
          ResponseBody := rbody; ResponseHeaders := rheaders;
          ResponseTimeMs := ms; ResponseSize := size; IsFavorite := favorite;
          CollectionID := collection |}.

(** An element of the array: [null] gives a nil pointer. *)
Definition unmarshal_element (v : json) : option (option RequestHistory) :=
  match v with
  | JNull => Some None
  | JObject members => Some <$> unmarshal_RequestHistory members
  | _ => None
  end.

(** [json.Unmarshal(data, &history)] with [var history []*RequestHistory]. *)
Definition json_Unmarshal (data : FileData)
  : error + slice (option RequestHistory) :=
  match data with
  | NotJSON _ => inl "invalid character looking for beginning of value"
  | JSONText _ _ JNull => inr nil_slice
  | JSONText _ _ (JArray items) =>
      match mapM unmarshal_element items with
      | Some ptrs => inr (mk_slice ptrs)
      | None => inl "json: cannot unmarshal value into Go struct field"
      end
  | JSONText _ _ _ =>
      inl "json: cannot unmarshal value into Go value of type []*storage.RequestHistory"
  end.

Definition lift {A} (r : error + A) : M A :=
  match r with inl e => fail e | inr a => ret a end.

(* ---------------------------------------------------------------- *)
(** *** Export and import                                            *)
(* ---------------------------------------------------------------- *)

Definition ExportHistory (filepath : string) : M unit :=
  let* history := GetRequestHistory 10000 0 in
  let* data := lift (json_MarshalIndent history "" "  ") in
  writeFile filepath data.

(** The loop of [ImportHistory]; [req.URL] on a nil [req] panics. *)
Fixpoint import_rows (history : list (option RequestHistory)) : M unit :=
  match history with
  | [] => ret tt
  | None :: _ => panic "runtime error: invalid memory address or nil pointer dereference"
  | Some req :: rest =>
      tx_Exec (sql_insert_request_history req) >> import_rows rest
  end.

Definition ImportHistory (filepath : string) : M unit :=
  let* data := readFile filepath in
  let* history := lift (json_Unmarshal data) in
  db_Begin >>
  deferred tx_Rollback
    (import_rows (slice_elems history) >> tx_Commit).

End Codec.

(* ================================================================== *)
(** ** [net/http] and [executeRequest] ([main.go])                     *)
(* ================================================================== *)

(** [httpguts.IsTokenRune]. *)
Definition isTokenRune (a : ascii) : bool :=
  in_range 48 57 a || in_range 65 90 a || in_range 97 122 a
  || bool_decide (a ∈ ["!"; "#"; "$"; "%"; "&"; "'"; "*"; "+"; "-"; ".";
                       "^"; "_"; "`"; "|"; "~"]%char).

Fixpoint all_bytes (f : ascii → bool) (s : string) : bool :=
  match s with
  | EmptyString => true
  | String a t => f a && all_bytes f t
  end.

(** [validMethod]: a non-empty token. *)
Definition validMethod (method : string) : bool :=
  negb (String.eqb method "") && all_bytes isTokenRune method.

(** [*http.Response], with the moment the request was sent and the
    client's time limit, which also bound the reading of the body. *)
Record Response := {
  Status : string;
  Header : gmap string (list string);
  resp_Body : BodyStream;
  resp_sent : Time;
  resp_limit : N;
}.

(** A string between double quotes (the verb [%q], escapes apart). *)
Definition in_quotes (s : string) : string :=
  String (ascii_of_N 34) (s +:+ String (ascii_of_N 34) EmptyString).

Definition second : N := 1000000000.

Definition timeout_error : error :=
  "context deadline exceeded (Client.Timeout exceeded)".

(** [http.Header.Add]. *)
Definition Header_Add (h : gmap string (list string)) (key value : string)
  : gmap string (list string) :=
  <[key := default [] (h !! key) ++ [value]]> h.

(** The header map the client builds while it reads the header lines. *)
Definition header_of_wire (wire : list (string * string)) : gmap string (list string) :=
  foldl (λ h kv, Header_Add h kv.1 kv.2) ∅ wire.

(** [for key, values := range h { for _, value := range values { ... } }]
    with the keys visited in [order]. *)
Definition range_pairs (order : list string) (h : gmap string (list string))
  : list ResponseHeader :=
  key ← order;
  (λ value, {| hdr_Key := key; hdr_Value := value |}) <$> default [] (h !! key).

Definition format_int (n : Z) : string := NilEmpty.string_of_int (Z.to_int n).

Section Client.
Context `{Platform}.

(** [http.NewRequest(method, url, nil)]: an empty method stands for GET;
    an invalid method or a URL that does not parse is an error, reported
    before anything is sent. *)
Definition http_NewRequest (method url : string) : error + (string * string) :=
  let method := if String.eqb method "" then "GET" else method in
  if negb (validMethod method)
  then inl ("net/http: invalid method " +:+ in_quotes method)
  else match url_Parse url with
       | Some e => inl e
       | None => inr (method, url)
       end.

(** [client.Do(req)] with [Timeout: limit]. The call returns once the
    response headers are in, or fails: the transport's own error, or the
    time limit when nothing has arrived by then. *)
Definition client_Do (limit : N) (req : string * string) : M Response :=
  λ w, match network req.1 req.2 with
       | RoundTripFails e t =>
           if (t <? limit)%N then (Err e, elapse t w)
           else (Err timeout_error, elapse limit w)
       | NoAnswer => (Err timeout_error, elapse limit w)
       | Answers t status wire body =>
           if (t <? limit)%N then
             (Ok {| Status := status; Header := header_of_wire wire;
                    resp_Body := body; resp_sent := now w;
                    resp_limit := limit |}, elapse t w)
           else (Err timeout_error, elapse limit w)
       end.

(** [io.ReadAll(resp.Body)]: the body in full, or the error that cut it
    short; the client's time limit still runs. *)
Definition io_ReadAll (resp : Response) : M string :=
  λ w, let at_ (t : N) := set_now (Z.max (now w) (resp_sent resp + Z.of_N t)) w in
       match resp_Body resp with
       | BodyComplete body t =>
           if (t <? resp_limit resp)%N then (Ok body, at_ t)
           else (Err timeout_error, at_ (resp_limit resp))
       | BodyFails e t =>
           if (t <? resp_limit resp)%N then (Err e, at_ t)
           else (Err timeout_error, at_ (resp_limit resp))
       | BodyStalls => (Err timeout_error, at_ (resp_limit resp))
       end.

(** [executeRequest]. The deferred [Body.Close()] is taken to succeed, so
    its error line is never printed. *)
Definition executeRequest (method url : string) : M ResponseInfo :=
  let* startTime := time_Now in
  let* req := lift (http_NewRequest method url) in
  let* resp := client_Do (30 * second) req in
  let* body := io_ReadAll resp in
  let* finished := time_Now in
  let responseTime := finished - startTime in
  let headers := range_pairs (range_order (Header resp)) (Header resp) in
  ret {| ri_Body := body;
         ri_Headers := headers;
         ri_Status := Status resp;
         ri_Size := Z.of_nat (String.length body);
         ri_ResponseTime := responseTime |}.

(* ---------------------------------------------------------------- *)
(** *** The history recorder ([main.go], [ui/history.go])            *)
(* ---------------------------------------------------------------- *)

(** [json.Marshal(response.Headers)]: the struct has no tags, the slice
    comes from [make] and is never nil. *)
Definition marshal_headers (headers : list ResponseHeader) : json :=
  JArray ((λ h, JObject [("Key", JString (json_coerce (hdr_Key h)));
                         ("Value", JString (json_coerce (hdr_Value h)))])
            <$> headers).

Definition set_labels (area status size time : string) (w : World) : World :=
  set_ui {| responseArea := area; statusLabel := status; sizeLabel := size;
            timeLabel := time; hp_history := hp_history (ui w) |} w.

Definition set_hp_history (l : list RequestHistory) (w : World) : World :=
  set_ui {| responseArea := responseArea (ui w);
            statusLabel := statusLabel (ui w); sizeLabel := sizeLabel (ui w);
            timeLabel := timeLabel (ui w); hp_history := l |} w.

(** [HistoryPanel.AddToHistory]: a failed save is printed and dropped. *)
Definition AddToHistory (req : RequestHistory) : M unit :=
  λ w, match SaveRequestHistory req w with
       | (Err err, w') =>
           fmt_Printf ("Failed to save request to history: " +:+ err +:+ newline) w'
       | (Panic p, w') => (Panic p, w')
       | (Ok saved, w') =>
           (Ok tt, set_hp_history (take 100 (saved :: hp_history (ui w'))) w')
       end.

(** [int(d.Milliseconds())]. *)
Definition Milliseconds (d : Z) : Z := Z.quot d 1000000.

(** The entry the goroutine of [submitRequest] builds from the executor's
    outcome; [stamp] is [time.Now()] taken after the executor returned. *)
Definition historyEntry_of (url method : string) (stamp : Time)
    (result : error + ResponseInfo) : RequestHistory :=
  match result with
  | inl _ =>
      {| ID := 0; URL := url; Method := method; Headers := ""; Body := "";
         Timestamp := stamp; ResponseStatus := "Error"; ResponseBody := "";
         ResponseHeaders := ""; ResponseTimeMs := 0; ResponseSize := 0;
         IsFavorite := false; CollectionID := None |}
  | inr response =>
      {| ID := 0; URL := url; Method := method; Headers := ""; Body := "";
         Timestamp := stamp; ResponseStatus := ri_Status response;
         ResponseBody := ri_Body response;
         ResponseHeaders := json_text (marshal_headers (ri_Headers response));
         ResponseTimeMs := Milliseconds (ri_ResponseTime response);
         ResponseSize := ri_Size response;
         IsFavorite := false; CollectionID := None |}
  end.

(** The goroutine of [submitRequest]. *)
Definition submit_goroutine (url method : string) : M unit :=
  λ w, let '(r, w1) := executeRequest method url w in
       let stamp := now w1 in
       match r with
       | Panic p => (Panic p, w1)
       | Err err =>
           let historyEntry := historyEntry_of url method stamp (inl err) in
           let w2 := set_labels ("Error: " +:+ err) "Status: Error"
                                "Size: -" "Time: -" w1 in
           AddToHistory historyEntry w2
       | Ok response =>
           let historyEntry := historyEntry_of url method stamp (inr response) in
           let w2 := set_labels (ri_Body response)
                       ("Status: " +:+ ri_Status response)
                       ("Size: " +:+ format_int (ri_Size response) +:+ " bytes")
                       ("Time: " +:+ format_int (Milliseconds (ri_ResponseTime response))
                                 +:+ ".00 ms") w1 in
           AddToHistory historyEntry w2
       end.

(** [submitRequest], on the content of the URL entry and the selected
    method. An empty URL is refused without a request. *)
Definition submitRequest (url method : string) : M unit :=
  if String.eqb url "" then
    λ w, (Ok tt, set_labels "Error: Please enter a URL" "Status: Error"
                            "Size: -" "Time: -" w)
  else
    λ w, submit_goroutine url method
           (set_labels "Loading..." "Status: Loading..." "Size: -" "Time: -" w).

End Client.

(* ================================================================== *)
(** ** Notions the properties are stated with                        *)
(* ================================================================== *)


(** No stored preference is stamped later than the clock reads. *)
Definition prefs_not_ahead (w : World) : Prop :=
  ∀ k v t, preferences (tables w) !! k = Some (v, t) → t ≤ now w.


(** The batch of [ImportHistory] as one step on the pending content: the
    rows inserted in order, stopping at the first insert that fails. *)
Fixpoint insert_all (fk : bool) (now : Time) (rows : list RequestHistory) (s : Store)
  : error + Store :=
  match rows with
  | [] => inr s
  | r :: rest =>
      match sql_insert_request_history r fk now s with
      | inl e => inl e
      | inr (s', _) => insert_all fk now rest s'
      end
  end.

(** Rows with consecutive identities from [next] on. *)
Fixpoint renumber (next : Z) (rows : list RequestHistory) : list RequestHistory :=
  match rows with
  | [] => []
  | r :: rest => with_ID next r :: renumber (next + 1) rest
  end.

(** The row breaks no foreign key the connection enforces. *)
Definition fk_ok (w : World) (r : RequestHistory) : Prop :=
  foreign_keys (conn w) && negb (collection_exists (tables w) (CollectionID r)) = false.

(** The driver and the operating system let the next [n] calls through. *)
Definition clear_ahead (n : nat) (w : World) : Prop :=
  Forall (λ f, f = None) (take n (faults w)).

(** The world [ImportHistory] runs its loop in: the file read and the
    transaction begun, two calls into the outside answered. *)
Definition begun (w : World) : World :=
  let w1 := set_faults (drop 1 (faults w)) w in
  let w2 := set_faults (drop 1 (faults w1)) w1 in
  set_txn (Some (tables w2)) w2.

(** The text columns and the integer columns of a history row. *)
Definition text_fields (r : RequestHistory) : list string :=
  [URL r; Method r; Headers r; Body r; ResponseStatus r; ResponseBody r;
   ResponseHeaders r].

Definition int_fields (r : RequestHistory) : list Z :=
  [ID r; ResponseTimeMs r; ResponseSize r]
  ++ match CollectionID r with Some c => [c] | None => [] end.

(** The integers of the row fit Go's [int]: true of every value the program
    holds. *)
Definition well_typed (r : RequestHistory) : Prop :=
  Forall (λ n, is_int n = true) (int_fields r).

(** Every text column is valid UTF-8. *)
Definition valid_text (r : RequestHistory) : Prop :=
  Forall (λ s, utf8_ValidString s = true) (text_fields r).

(** The timestamp can be written as RFC 3339 text (its year is in 0..9999). *)
Definition writable_time `{Platform} (r : RequestHistory) : Prop :=
  is_Some (time_MarshalJSON (Timestamp r)).

(** A row up to its identity. *)
Definition without_ID (r : RequestHistory) : RequestHistory := with_ID 0 r.

(** What an optional text member contributes to the members addressing its
    field. *)
Definition omitted (v : string) : list json :=
  if String.eqb v "" then [] else [JString (json_coerce v)].

(** The document [ExportHistory] writes for the rows it fetched. *)
Definition exported (rows : list RequestHistory) (objs : list json) : FileData :=
  JSONText "" "  " (match rows with [] => JNull | _ => JArray objs end).


(** A header line as a key/value pair. *)
Definition to_pair (kv : string * string) : ResponseHeader :=
  {| hdr_Key := kv.1; hdr_Value := kv.2 |}.




(* ================================================================== *)
(** ** A test double of the platform                                   *)
(* ================================================================== *)

(** Used to run the model on concrete inputs. Timestamps are written as
    decimal Unix nanoseconds, JSON text is compact with quotes and
    backslashes escaped, URLs holding a control byte do not parse, the
    network is the stub server of the specification's test plan, and a
    [range] visits keys in the order [map_to_list] lists them. *)

Definition double_time_MarshalJSON (t : Time) : option string :=
  Some (NilEmpty.string_of_int (Z.to_int t)).

Definition double_time_UnmarshalJSON (s : string) : option Time :=
  Z.of_int <$> NilEmpty.int_of_string s.

Definition dquote : ascii := ascii_of_N 34.
Definition backslash : ascii := ascii_of_N 92.

Fixpoint double_quote (s : string) : string :=
  match s with
  | EmptyString => EmptyString
  | String a t =>
      if Ascii.eqb a dquote || Ascii.eqb a backslash
      then String backslash (String a (double_quote t))
      else String a (double_quote t)
  end.

Definition join_with (sep : string) (l : list string) : string :=
  match l with
  | [] => EmptyString
  | x :: rest => foldl (λ acc y, acc +:+ sep +:+ y) x rest
  end.

Definition quoted (s : string) : string :=
  String dquote (double_quote s +:+ String dquote EmptyString).

Fixpoint double_json_text (v : json) : string :=
  match v with
  | JNull => "null"
  | JBool true => "true"
  | JBool false => "false"
  | JInt n => format_int n
  | JNumber lit => lit
  | JString s => quoted s
  | JArray items => "[" +:+ join_with "," (map double_json_text items) +:+ "]"
  | JObject members =>
      "{" +:+ join_with ","
                (map (λ kv, quoted (fst kv) +:+ ":" +:+ double_json_text (snd kv))
                     members) +:+ "}"
  end.

Definition is_control (a : ascii) : bool :=
  (byte_of a <? 32)%N || (byte_of a =? 127)%N.

Definition double_url_Parse (url : string) : option error :=
  if all_bytes (λ a, negb (is_control a)) url then None
  else Some "net/url: invalid control character in URL".

Definition millisecond : N := 1000000.

(** The header lines the stub server sends for [/200]. *)
Definition wire_200 : list (string * string) :=
  [("Content-Type", "text/plain"); ("Set-Cookie", "a=1");
   ("Date", "Sun, 01 Nov 2026 00:00:00 GMT"); ("Set-Cookie", "b=2")].

(** The first bytes of a PNG image; the first one, 0x89, is not UTF-8. *)
Definition png_signature : string := String (ascii_of_N 137) "PNG".

Definition double_network (method url : string) : Exchange :=
  if String.eqb url "https://example.test/200" then
    Answers (5 * millisecond) "200 OK" wire_200
      (BodyComplete "ok" (6 * millisecond))
  else if String.eqb url "https://example.test/404" then
    Answers (5 * millisecond) "404 Not Found" [("Content-Length", "9")]
      (BodyComplete "not found" (6 * millisecond))
  else if String.eqb url "https://example.test/logo.png" then
    Answers (5 * millisecond) "200 OK" [("Content-Type", "image/png")]
      (BodyComplete png_signature (6 * millisecond))
  else if String.eqb url "https://example.test/timeout" then NoAnswer
  else RoundTripFails "dial tcp: lookup host: no such host" millisecond.

Definition double_range_order (m : gmap string (list string)) : list string :=
  (map_to_list m).*1.

Definition double_platform : Platform :=
  {| time_MarshalJSON := double_time_MarshalJSON;
     time_UnmarshalJSON := double_time_UnmarshalJSON;
     json_text := double_json_text;
     url_Parse := double_url_Parse;
     network := double_network;
     range_order := double_range_order |}.

(* ================================================================== *)
(** ** Sample data and scenarios                                       *)
(* ================================================================== *)

Definition blank_ui : UI :=
  {| responseArea := "Response will appear here..."; statusLabel := "Status: -";
     sizeLabel := "Size: -"; timeLabel := "Time: -"; hp_history := [] |}.

(** The program before [initDB]: no file opened yet, nothing on disk, every
    call into the driver going through. *)
Definition power_on : World :=
  {| conn := {| db_file := empty_Store; foreign_keys := false; txn := None |};
     now := 1793491200000000000; faults := []; files := ∅; stdout := [];
     ui := blank_ui |}.

Definition sample_entry (stamp : Time) (body : string) (c : option Z) : RequestHistory :=
  {| ID := 0; URL := "https://example.test/200"; Method := "GET"; Headers := "";
     Body := ""; Timestamp := stamp; ResponseStatus := "200 OK";
     ResponseBody := body; ResponseHeaders := "[]"; ResponseTimeMs := 6;
     ResponseSize := 2; IsFavorite := false; CollectionID := c |}.

Definition sample_saved (c : option Z) : SavedRequest :=
  {| sr_ID := 0; sr_Name := "ping"; sr_URL := "https://example.test/200";
     sr_Method := "GET"; sr_Headers := ""; sr_Body := "";
     sr_CollectionID := c; sr_CreatedAt := 0 |}.

(** Create a collection, file a history row and a saved request under it,
    delete the collection, then list what is left. *)
Definition collection_scenario
  : M (slice RequestHistory * slice SavedRequest * slice Collection) :=
  initDB empty_Store >>
  let* c := CreateCollection "demo" "" in
  let* _ := SaveRequestHistory (sample_entry 1000 "ok" (Some (col_ID c))) in
  let* _ := SaveRequest (sample_saved (Some (col_ID c))) in
  DeleteCollection (col_ID c) >>
  let* history := GetRequestHistory 100 0 in
  let* saved := GetSavedRequests (Some (col_ID c)) in
  let* cols := GetCollections in
  ret (history, saved, cols).



(** Ten history entries with distinct timestamps, and a backup of them as
    [ExportHistory] lays it out, written with the test double. *)
Definition ten_rows : list RequestHistory :=
  (λ i, sample_entry (1000 + i) "ok" None) <$> seqZ 1 10.

Definition backup_of (rows : list RequestHistory) : FileData :=
  match @json_MarshalIndent double_platform (mk_slice rows) "" "  " with
  | inr data => data
  | inl _ => NotJSON ""
  end.

Definition with_backup : World :=
  set_files {["backup.json" := backup_of ten_rows]} power_on.

(** The driver refuses the fifth insert of the import. *)
Definition fifth_insert_fails : World :=
  set_faults (replicate 6 None ++ [Some "disk I/O error"]) with_backup.

(** A backup whose fifth element is not an object. *)
Definition with_damaged_backup : World :=
  set_files
    {["backup.json" :=
        match backup_of ten_rows with
        | JSONText p i (JArray items) =>
            JSONText p i (JArray (<[4%nat := JBool true]> items))
        | other => other
        end]} power_on.

(** A started program holding the ten sample rows. *)
Definition with_ten_rows : World :=
  set_db_file
    {| preferences := ∅; collections := [];
       request_history := renumber 1 ten_rows; saved_requests := [];
       seq_collections := 0; seq_request_history := 10; seq_saved_requests := 0 |}
    power_on.

(** Run a request, export the history, open an empty database file, import
    the export: the response bodies before and after. *)
Definition roundtrip_scenario `{Platform} (url : string)
  : M (list string * list string) :=
  initDB empty_Store >>
  submitRequest url "GET" >>
  let* before := GetRequestHistory 100 0 in
  ExportHistory "backup.json" >>
  initDB empty_Store >>
  ImportHistory "backup.json" >>
  let* after := GetRequestHistory 100 0 in
  ret (ResponseBody <$> slice_elems before, ResponseBody <$> slice_elems after).


(** In the list, the [a=1] cookie is directly followed by the [b=2]
    cookie wherever it occurs. *)
Fixpoint cookie_a_then_b (l : list ResponseHeader) : bool :=
  match l with
  | [] => true
  | p :: rest =>
      (if String.eqb (hdr_Value p) "a=1"
       then match rest with
            | q :: _ => String.eqb (hdr_Value q) "b=2"
            | [] => false
            end
       else true)
      && cookie_a_then_b rest
  end.

(* ================================================================== *)
(** * Properties                                                       *)
(* ================================================================== *)

(** ** The test double is a platform *)

Lemma double_time_codec_faithful : @time_codec_faithful double_platform.
Proof.
  intros t s. simpl. unfold double_time_MarshalJSON, double_time_UnmarshalJSON.
  intros [= <-]. rewrite NilEmpty.isi. simpl. f_equal. apply DecimalZ.of_to.
Qed.


(** ** UTF-8 *)

(** Valid UTF-8 goes through [encoding/json] unchanged. *)
Lemma json_coerce_from_valid (s : string) :
  ∀ pending, utf8_valid_from pending s = true → json_coerce_from pending s = s.
Proof.
  induction s as [|a t IH]; intros pending Hv; [reflexivity|].
  destruct pending as [|k].
  - cbn [utf8_valid_from json_coerce_from] in *.
    destruct (rune_width (String a t)) as [|w]; [discriminate|].
    f_equal. now apply IH.
  - cbn [utf8_valid_from json_coerce_from] in *. f_equal. now apply IH.
Qed.

Lemma json_coerce_valid (s : string) :
  utf8_ValidString s = true → json_coerce s = s.
Proof. apply json_coerce_from_valid. Qed.

(** ** ORDER BY *)

Section OrderByFacts.
Context {A : Type} (le : A → A → bool).
Hypothesis le_total : ∀ a b, le a b = true ∨ le b a = true.
Hypothesis le_trans : ∀ a b c, le a b = true → le b c = true → le a c = true.

Lemma insert_sorted_Permutation (x : A) (l : list A) :
  insert_sorted le x l ≡ₚ x :: l.
Proof.
  induction l as [|y l IH]; simpl; [done|].
  destruct (le x y); [done|].
  rewrite IH. apply perm_swap.
Qed.

Lemma order_by_Permutation (l : list A) : order_by le l ≡ₚ l.
Proof.
  induction l as [|x l IH]; simpl; [done|].
  unfold order_by in *. simpl.
  rewrite insert_sorted_Permutation. now rewrite IH.
Qed.

Lemma order_by_length (l : list A) : length (order_by le l) = length l.
Proof. apply Permutation_length, order_by_Permutation. Qed.


End OrderByFacts.


(** ** The driver *)

(** What a call that goes wrong has changed: the fault list only. *)
Lemma io_call_cases (w : World) :
  (∃ rest, io_call w = (Ok tt, set_faults rest w)
           ∧ (faults w = [] ∧ rest = [] ∨ faults w = None :: rest))
  ∨ (∃ e rest, io_call w = (Err e, set_faults rest w)
               ∧ faults w = Some e :: rest).
Proof.
  unfold io_call. destruct w as [c n f fi so u]; simpl.
  destruct f as [|[e|] rest]; simpl.
  - left. exists []. split; [reflexivity|]. now left.
  - right. exists e, rest. done.
  - left. exists rest. split; [reflexivity|]. now right.
Qed.


(** [db.Exec] either fails and leaves the file alone, or applies the
    statement to the file under the connection's pragma and the clock. *)
Lemma db_Exec_cases (st : statement) (w : World) :
  match db_Exec st w with
  | (Ok id, w') =>
      st (foreign_keys (conn w)) (now w) (tables w) = inr (tables w', id)
      ∧ foreign_keys (conn w') = foreign_keys (conn w)
      ∧ now w' = now w ∧ files w' = files w ∧ stdout w' = stdout w
      ∧ ui w' = ui w ∧ txn (conn w') = txn (conn w)
  | (Err e, w') =>
      tables w' = tables w
      ∧ foreign_keys (conn w') = foreign_keys (conn w)
      ∧ now w' = now w ∧ files w' = files w ∧ stdout w' = stdout w
      ∧ ui w' = ui w ∧ txn (conn w') = txn (conn w)
      ∧ (head (faults w) = Some (Some e)
         ∨ st (foreign_keys (conn w)) (now w) (tables w) = inl e)
  | (Panic _, _) => False
  end.
Proof.
  unfold db_Exec, bind.
  destruct (io_call_cases w) as [(rest & -> & _)|(e & rest & -> & Hf)].
  - unfold tables. simpl.
    destruct (st _ _ _) as [e|[s' id]]; simpl; [|done].
    repeat split; try done. now right.
  - simpl. rewrite Hf. repeat split; try done. now left.
Qed.



(** ** Clearing the history (C10) *)

(** C10. [ClearRequestHistory] fails only when the driver does, and then
    changes nothing in the file; when it succeeds, [request_history] is empty
    and [preferences], [collections] and [saved_requests] hold exactly the
    rows they held before (the AUTOINCREMENT counters are untouched as
    well). *)
Theorem ClearRequestHistory_frame (w : World) :
  match ClearRequestHistory w with
  | (Ok _, w') =>
      request_history (tables w') = []
      ∧ preferences (tables w') = preferences (tables w)
      ∧ collections (tables w') = collections (tables w)
      ∧ saved_requests (tables w') = saved_requests (tables w)
      ∧ seq_collections (tables w') = seq_collections (tables w)
      ∧ seq_request_history (tables w') = seq_request_history (tables w)
      ∧ seq_saved_requests (tables w') = seq_saved_requests (tables w)
  | (Err e, w') => head (faults w) = Some (Some e) ∧ tables w' = tables w
  | (Panic _, _) => False
  end.
Proof.
  unfold ClearRequestHistory, bind.
  pose proof (db_Exec_cases sql_clear_request_history w) as Hx.
  destruct (db_Exec sql_clear_request_history w) as [[id|e|p] w']; simpl.
  - destruct Hx as [Hst _]. unfold sql_clear_request_history in Hst.
    injection Hst as <- _. simpl. done.
  - destruct Hx as (Ht & _ & _ & _ & _ & _ & _ & [Hf|Hst]); [done|].
    discriminate.
  - done.
Qed.

(** ** Deleting a collection (C1) *)

Lemma filter_nothing {A} (P : A → Prop) `{∀ x, Decision (P x)} (l : list A) :
  (∀ x, x ∈ l → ¬ P x) → filter P l = [].
Proof.
  induction l as [|x l IH]; intros Hl; [done|].
  rewrite filter_cons. destruct (decide (P x)) as [Hp|_].
  - exfalso. eapply Hl; [left|exact Hp].
  - apply IH. intros y Hy. apply Hl. now right.
Qed.

(** [initDB] opens the file as it is and leaves foreign key enforcement
    off: nothing in [db.go] issues the pragma. *)
Lemma initDB_foreign_keys_off (file : Store) (w w' : World) :
  initDB file w = (Ok tt, w') →
  foreign_keys (conn w') = false ∧ tables w' = file.
Proof.
  unfold initDB, migrate.
  destruct (io_call_cases (set_conn (sql_Open file) w))
    as [(rest & -> & _)|(e & rest & -> & _)]; [|discriminate].
  now intros [= <-].
Qed.

(** With enforcement off, deleting a collection touches neither
    [request_history] nor [saved_requests]. *)
Lemma DeleteCollection_unenforced (id : Z) (w w' : World) :
  foreign_keys (conn w) = false →
  DeleteCollection id w = (Ok tt, w') →
  request_history (tables w') = request_history (tables w)
  ∧ saved_requests (tables w') = saved_requests (tables w)
  ∧ collections (tables w') = filter (λ c, col_ID c ≠ id) (collections (tables w)).
Proof.
  intros Hfk. unfold DeleteCollection, bind.
  pose proof (db_Exec_cases (sql_delete_collection id) w) as Hx.
  destruct (db_Exec (sql_delete_collection id) w) as [[r|e|p] w1]; simpl;
    [|discriminate..].
  intros [= <-]. destruct Hx as [Hst _].
  rewrite Hfk in Hst. unfold sql_delete_collection in Hst.
  injection Hst as <- _. done.
Qed.

(** With enforcement on, the actions declared in the schema run: the
    history rows that referenced the collection get a null reference and the
    saved requests filed under it are gone. *)
Lemma DeleteCollection_enforced (id : Z) (w w' : World) :
  foreign_keys (conn w) = true →
  DeleteCollection id w = (Ok tt, w') →
  request_history (tables w') = set_null_on_delete id <$> request_history (tables w)
  ∧ (∀ r, r ∈ request_history (tables w') → CollectionID r ≠ Some id)
  ∧ sql_select_saved_requests (Some id) (tables w') = [].
Proof.
  intros Hfk. unfold DeleteCollection, bind.
  pose proof (db_Exec_cases (sql_delete_collection id) w) as Hx.
  destruct (db_Exec (sql_delete_collection id) w) as [[r|e|p] w1]; simpl;
    [|discriminate..].
  intros [= <-]. destruct Hx as [Hst _].
  rewrite Hfk in Hst. unfold sql_delete_collection in Hst.
  injection Hst as <- _. simpl. split; [done|]. split.
  - intros r' [r0 [-> _]]%list_elem_of_fmap.
    unfold set_null_on_delete. case_bool_decide; simpl; congruence.
  - unfold sql_select_saved_requests. simpl.
    rewrite filter_nothing; [done|].
    intros r' [Hr _]%list_elem_of_filter. done.
Qed.

(** C1, on the program as [initDB] starts it: after [CreateCollection],
    [SaveRequestHistory] and [SaveRequest] under the new collection and a
    successful [DeleteCollection], the history row still carries the
    identity of the deleted collection and [GetSavedRequests] still lists
    the saved request, while [GetCollections] is empty. *)
Theorem DeleteCollection_leaves_dangling_reference :
  fst (collection_scenario power_on)
  = Ok (mk_slice [with_ID 1 (sample_entry 1000 "ok" (Some 1))],
        mk_slice [sr_with_ID 1
                    {| sr_ID := 0; sr_Name := "ping";
                       sr_URL := "https://example.test/200"; sr_Method := "GET";
                       sr_Headers := ""; sr_Body := ""; sr_CollectionID := Some 1;
                       sr_CreatedAt := now power_on |}],
        nil_slice).
Proof. vm_compute. reflexivity. Qed.

(** ** Preferences (C8) *)

Lemma prefs_not_ahead_elapse (dt : N) (w : World) :
  prefs_not_ahead w → prefs_not_ahead (elapse dt w).
Proof.
  unfold prefs_not_ahead, elapse, tables. simpl. intros Hw k v t Hk.
  specialize (Hw k v t Hk). lia.
Qed.

Lemma prefs_not_ahead_SetPreference (key value : string) (w w' : World)
    (r : outcome unit) :
  prefs_not_ahead w → SetPreference key value w = (r, w') → prefs_not_ahead w'.
Proof.
  intros Hw. unfold SetPreference, bind.
  pose proof (db_Exec_cases (sql_upsert_preference key value) w) as Hx.
  destruct (db_Exec (sql_upsert_preference key value) w) as [[id|e|p] w1];
    simpl; intros [= <- <-]; [| |done].
  - destruct Hx as (Hst & _ & Hnow & _). unfold sql_upsert_preference in Hst.
    injection Hst as Hst _. intros k v t. rewrite <- Hst, Hnow. simpl.
    rewrite lookup_insert. case_decide; [intros [= <- <-]; lia|apply Hw].
  - destruct Hx as (Ht & _ & Hnow & _). intros k v t. rewrite Ht, Hnow. apply Hw.
Qed.

Lemma prefs_not_ahead_initDB (w w' : World) :
  initDB empty_Store w = (Ok tt, w') → prefs_not_ahead w'.
Proof.
  intros [_ Ht]%initDB_foreign_keys_off k v t. rewrite Ht. simpl.
  now rewrite lookup_empty.
Qed.



(** ** Searching the history (C2) *)









Lemma collect_rows_app {A} (rows : list A) (s : slice A) :
  foldl slice_append s rows
  = match rows with [] => s | _ => mk_slice (slice_elems s ++ rows) end.
Proof.
  revert s. induction rows as [|x rows IH]; intros s; [reflexivity|].
  simpl. rewrite IH. destruct rows; simpl; [reflexivity|].
  now rewrite <- app_assoc.
Qed.

(** The loop over [rows.Next()] yields the nil slice when there is no row. *)
Lemma collect_rows_spec {A} (rows : list A) :
  collect_rows rows = match rows with [] => nil_slice | _ => mk_slice rows end.
Proof. unfold collect_rows. now rewrite collect_rows_app. Qed.



Lemma sql_limit_all {A} (n : Z) (l : list A) :
  n < 0 ∨ Z.of_nat (length l) ≤ n → sql_limit n l = l.
Proof.
  unfold sql_limit. intros [Hn|Hn].
  - now rewrite (proj2 (Z.ltb_lt _ _) Hn).
  - destruct (n <? 0); [done|]. apply take_ge. lia.
Qed.







(** ** Import: all or nothing (C3) *)

Lemma io_call_pass (w : World) :
  clear_ahead 1 w → io_call w = (Ok tt, set_faults (drop 1 (faults w)) w).
Proof.
  unfold clear_ahead, io_call. destruct w as [c n f fi so u]; simpl.
  destruct f as [|[e|] rest]; simpl; [done| |done].
  intros Hc. apply Forall_cons in Hc as [? _]. discriminate.
Qed.


Lemma clear_ahead_S (n : nat) (w : World) :
  clear_ahead (S n) w →
  clear_ahead 1 w ∧ ∀ w', faults w' = drop 1 (faults w) → clear_ahead n w'.
Proof.
  unfold clear_ahead. destruct (faults w) as [|f rest]; simpl.
  - intros _. split; [constructor|]. intros w' ->. now rewrite take_nil.
  - intros [Hf Hr]%Forall_cons. split; [now repeat constructor|].
    intros w' ->. now rewrite drop_0.
Qed.

Lemma clear_ahead_le (n m : nat) (w : World) :
  (n ≤ m)%nat → clear_ahead m w → clear_ahead n w.
Proof.
  unfold clear_ahead. intros Hnm Hm.
  rewrite <- (Nat.min_l n m), <- take_take by done.
  now apply Forall_take.
Qed.

Lemma clear_ahead_drop (n k : nat) (w w' : World) :
  faults w' = drop k (faults w) → clear_ahead (k + n) w → clear_ahead n w'.
Proof.
  unfold clear_ahead. intros -> Hc. rewrite take_drop_commute.
  now apply Forall_drop.
Qed.

Lemma clear_ahead_no_faults (n : nat) (w : World) : faults w = [] → clear_ahead n w.
Proof. unfold clear_ahead. intros ->. now rewrite take_nil. Qed.

Lemma foldr_max_snoc (l : list Z) (x : Z) :
  foldr Z.max 0 (l ++ [x]) = Z.max (foldr Z.max 0 l) (Z.max x 0).
Proof. induction l as [|y l IH]; simpl; [lia|]. rewrite IH. lia. Qed.

(** Identities are handed out in sequence. *)
Lemma next_rowid_next (seq : Z) (ids : list Z) :
  let id := next_rowid seq ids in next_rowid id (ids ++ [id]) = id + 1.
Proof.
  unfold next_rowid. rewrite foldr_max_snoc.
  assert (0 ≤ foldr Z.max 0 ids) by (induction ids; simpl; lia). lia.
Qed.

(** When no enforced foreign key is broken, the batch appends every row, in
    order, under fresh consecutive identities, and touches nothing else. *)
Lemma insert_all_appends (fk : bool) (now : Time) (rows : list RequestHistory) :
  ∀ s : Store,
    Forall (λ r, fk && negb (collection_exists s (CollectionID r)) = false) rows →
    ∃ s', insert_all fk now rows s = inr s'
          ∧ request_history s' =
              request_history s
              ++ renumber (next_rowid (seq_request_history s)
                                      (ID <$> request_history s)) rows
          ∧ preferences s' = preferences s
          ∧ collections s' = collections s
          ∧ saved_requests s' = saved_requests s.
Proof.
  induction rows as [|r rows IH]; intros s Hfk.
  - exists s. simpl. now rewrite app_nil_r.
  - apply Forall_cons in Hfk as [Hr Hrows].
    cbn [insert_all]. unfold sql_insert_request_history at 1. rewrite Hr.
    set (id := next_rowid (seq_request_history s) (ID <$> request_history s)).
    match goal with |- context [insert_all _ _ _ ?s1] => set (s1' := s1) end.
    destruct (IH s1') as (s' & Hins & Hrh & Hp & Hc & Hs); [exact Hrows|].
    exists s'. subst s1'. cbn [request_history seq_request_history preferences
                              collections saved_requests] in Hrh, Hp, Hc, Hs.
    split; [exact Hins|].
    rewrite Hrh, Hp, Hc, Hs, fmap_app.
    change (ID <$> [with_ID id r]) with [id].
    pose proof (next_rowid_next (seq_request_history s) (ID <$> request_history s))
      as Hnext.
    cbv zeta in Hnext. fold id in Hnext. rewrite Hnext.
    now rewrite <- app_assoc.
Qed.

Section ImportFacts.
Context `{Platform}.

(** The loop works on the pending content only. If it runs to its end,
    no element was nil and the pending content is the batch applied. *)
Lemma import_rows_result (ptrs : list (option RequestHistory)) :
  ∀ (w : World) (pending : Store),
    txn (conn w) = Some pending →
    match import_rows ptrs w with
    | (Ok _, w') =>
        ∃ rows pending',
          ptrs = Some <$> rows
          ∧ insert_all (foreign_keys (conn w)) (now w) rows pending = inr pending'
          ∧ txn (conn w') = Some pending'
          ∧ tables w' = tables w
    | (_, w') => tables w' = tables w
    end.
Proof.
  induction ptrs as [|[r|] ptrs IH]; intros w pending Htx.
  - exists [], pending. done.
  - cbn [import_rows]. unfold bind at 1. unfold tx_Exec, bind.
    destruct (io_call_cases w) as [(rest & -> & _)|(e & rest & -> & _)];
      [|done].
    change (txn (conn (set_faults rest w))) with (txn (conn w)). rewrite Htx.
    change (foreign_keys (conn (set_faults rest w))) with (foreign_keys (conn w)).
    change (now (set_faults rest w)) with (now w).
    destruct (sql_insert_request_history r _ _ pending) as [e|[s' id]] eqn:Hst;
      [done|].
    specialize (IH (set_txn (Some s') (set_faults rest w)) s' eq_refl).
    destruct (import_rows ptrs _) as [[u|e|p] w']; [|done..].
    destruct IH as (rows & pending' & -> & Hins & Htx' & Ht).
    exists (r :: rows), pending'. cbn [insert_all]. rewrite Hst. done.
  - done.
Qed.

(** While the driver lets the calls through and no enforced foreign key
    is broken, the loop runs to its end. *)
Lemma import_rows_pass (rows : list RequestHistory) :
  ∀ (w : World) (pending : Store),
    txn (conn w) = Some pending →
    clear_ahead (length rows) w →
    Forall (λ r, foreign_keys (conn w)
                 && negb (collection_exists pending (CollectionID r)) = false) rows →
    ∃ w', import_rows (Some <$> rows) w = (Ok tt, w')
          ∧ faults w' = drop (length rows) (faults w).
Proof.
  induction rows as [|r rows IH]; intros w pending Htx Hc Hfk.
  - exists w. done.
  - apply Forall_cons in Hfk as [Hr Hrows].
    apply clear_ahead_S in Hc as [Hc1 Hc].
    cbn [fmap list_fmap import_rows]. unfold bind at 1. unfold tx_Exec, bind.
    rewrite io_call_pass by done.
    change (txn (conn (set_faults (drop 1 (faults w)) w))) with (txn (conn w)).
    rewrite Htx.
    change (foreign_keys (conn (set_faults (drop 1 (faults w)) w)))
      with (foreign_keys (conn w)).
    unfold sql_insert_request_history at 1. rewrite Hr.
    match goal with |- context [set_txn (Some ?s1) ?w1] =>
      destruct (IH (set_txn (Some s1) w1) s1 eq_refl) as (w' & -> & Hf) end.
    + apply Hc. reflexivity.
    + exact Hrows.
    + exists w'. split; [done|]. rewrite Hf. simpl.
      now rewrite drop_drop.
Qed.


End ImportFacts.

Section ImportTheorems.
Context `{Platform}.

(** Whatever the file holds and whatever fails, [ImportHistory] leaves the
    database file either as it was or with the whole batch applied. *)
Lemma ImportHistory_never_partial (filepath : string) (w : World) :
  match ImportHistory filepath w with
  | (Ok _, w') =>
      ∃ data ptrs rows,
        files w !! filepath = Some data
        ∧ json_Unmarshal data = inr ptrs
        ∧ slice_elems ptrs = Some <$> rows
        ∧ insert_all (foreign_keys (conn w)) (now w) rows (tables w)
          = inr (tables w')
  | (_, w') => tables w' = tables w
  end.
Proof.
  unfold ImportHistory, bind at 1. unfold readFile, bind at 1.
  destruct (io_call_cases w) as [(f1 & -> & _)|(e & f1 & -> & _)]; [|done].
  change (files (set_faults f1 w)) with (files w).
  destruct (files w !! filepath) as [data|] eqn:Hfile; [|done].
  unfold bind at 1.
  destruct (json_Unmarshal data) as [e|ptrs] eqn:Hdec; [done|].
  cbn [lift ret]. unfold bind at 1. unfold db_Begin, bind at 1.
  destruct (io_call_cases (set_faults f1 w)) as [(f2 & -> & _)|(e & f2 & -> & _)];
    [|done].
  unfold deferred, bind.
  match goal with |- context [import_rows _ ?w3] =>
    pose proof (import_rows_result (slice_elems ptrs) w3 (tables w) eq_refl) as Hrun;
    destruct (import_rows (slice_elems ptrs) w3) as [[u|e|p] w4]
  end; [|done..].
  destruct Hrun as (rows & pending' & Hrows & Hins & Htx & Ht).
  unfold tx_Commit. rewrite Htx.
  destruct (io_call_cases w4) as [(f3 & -> & _)|(e & f3 & -> & _)].
  - exists data, ptrs, rows. done.
  - exact Ht.
Qed.

Lemma ImportHistory_begun (filepath : string) (w : World) (data : FileData)
    (ptrs : slice (option RequestHistory)) :
  files w !! filepath = Some data →
  json_Unmarshal data = inr ptrs →
  clear_ahead 2 w →
  ImportHistory filepath w
  = deferred tx_Rollback (import_rows (slice_elems ptrs) >> tx_Commit) (begun w).
Proof.
  intros Hfile Hdec Hc.
  apply clear_ahead_S in Hc as [Hc1 Hc2].
  unfold ImportHistory, bind at 1. unfold readFile, bind at 1.
  rewrite io_call_pass by done.
  change (files (set_faults (drop 1 (faults w)) w)) with (files w).
  rewrite Hfile. unfold bind at 1. rewrite Hdec. cbn [lift ret].
  unfold bind at 1. unfold db_Begin, bind at 1.
  rewrite io_call_pass by (apply Hc2; reflexivity).
  reflexivity.
Qed.

Lemma begun_faults (w : World) : faults (begun w) = drop 2 (faults w).
Proof. unfold begun. simpl. now rewrite drop_drop. Qed.

(** What a successful import has added. *)
Lemma ImportHistory_committed (w w' : World) (filepath : string)
    (data : FileData) (ptrs : slice (option RequestHistory))
    (rows : list RequestHistory) :
  files w !! filepath = Some data →
  json_Unmarshal data = inr ptrs →
  slice_elems ptrs = Some <$> rows →
  Forall (fk_ok w) rows →
  ImportHistory filepath w = (Ok tt, w') →
  request_history (tables w')
  = request_history (tables w)
    ++ renumber (next_rowid (seq_request_history (tables w))
                            (ID <$> request_history (tables w))) rows
  ∧ preferences (tables w') = preferences (tables w)
  ∧ collections (tables w') = collections (tables w)
  ∧ saved_requests (tables w') = saved_requests (tables w).
Proof.
  intros Hfile Hdec Hrows Hfk Hrun.
  pose proof (ImportHistory_never_partial filepath w) as Hnp.
  rewrite Hrun in Hnp.
  destruct Hnp as (data' & ptrs' & rows' & Hfile' & Hdec' & Hrows' & Hins).
  rewrite Hfile in Hfile'. injection Hfile' as <-.
  rewrite Hdec in Hdec'. injection Hdec' as <-.
  rewrite Hrows in Hrows'. apply (inj (fmap Some)) in Hrows' as <-.
  destruct (insert_all_appends (foreign_keys (conn w)) (now w) rows (tables w))
    as (s' & Hs' & Hrh & Hp & Hc & Hs); [exact Hfk|].
  rewrite Hs' in Hins. injection Hins as <-. done.
Qed.

(** With the driver and the file system answering, the import succeeds. *)
Lemma ImportHistory_succeeds (w : World) (filepath : string)
    (data : FileData) (ptrs : slice (option RequestHistory))
    (rows : list RequestHistory) :
  files w !! filepath = Some data →
  json_Unmarshal data = inr ptrs →
  slice_elems ptrs = Some <$> rows →
  Forall (fk_ok w) rows →
  clear_ahead (length rows + 3) w →
  ∃ w', ImportHistory filepath w = (Ok tt, w').
Proof.
  intros Hfile Hdec Hrows Hfk Hc.
  rewrite (ImportHistory_begun filepath w data ptrs); try done.
  - unfold deferred, bind. rewrite Hrows.
    destruct (import_rows_pass rows (begun w) (tables w)) as (w' & Hrun & Hf');
      [reflexivity| |exact Hfk|].
    + eapply (clear_ahead_drop _ 2 w); [apply begun_faults|].
      eapply clear_ahead_le; [|exact Hc]. lia.
    + pose proof (import_rows_result (Some <$> rows) (begun w) (tables w) eq_refl)
        as Hres.
      rewrite Hrun in *. destruct Hres as (rows' & pending' & _ & _ & Htx & _).
      unfold tx_Commit. rewrite Htx. rewrite io_call_pass; [eauto|].
      eapply (clear_ahead_drop _ (2 + length rows) w).
      * now rewrite Hf', begun_faults, drop_drop.
      * eapply clear_ahead_le; [|exact Hc]. lia.
  - eapply clear_ahead_le; [|exact Hc]. lia.
Qed.



End ImportTheorems.


(** The test of the specification: when the fifth of ten inserts fails, the
    driver's error comes back and no row has been added. *)
Example ImportHistory_fifth_of_ten_fails :
  let '(r, w') := @ImportHistory double_platform "backup.json" fifth_insert_fails in
  r = Err "disk I/O error" ∧ request_history (tables w') = [].
Proof. vm_compute. done. Qed.

(** A fifth element that is not an object is refused by the decoder, before
    any transaction is begun. *)
Example ImportHistory_fifth_of_ten_malformed :
  let '(r, w') := @ImportHistory double_platform "backup.json" with_damaged_backup in
  r = Err "json: cannot unmarshal value into Go struct field"
  ∧ request_history (tables w') = [].
Proof. vm_compute. done. Qed.

(** With nothing failing, the ten rows are added. *)
Example ImportHistory_ten_rows :
  let '(r, w') := @ImportHistory double_platform "backup.json" with_backup in
  r = Ok tt ∧ request_history (tables w') = renumber 1 ten_rows.
Proof. vm_compute. done. Qed.

(** ** The JSON codec, export and import (C9, C4) *)

Section CodecFacts.
Context `{Platform}.

Lemma members_of_nil (name : string) : members_of name [] = [].
Proof. reflexivity. Qed.

Lemma members_of_cons (name k : string) (v : json) (l : list (string * json)) :
  members_of name ((k, v) :: l)
  = if String.eqb (fold_ascii k) name then v :: members_of name l
    else members_of name l.
Proof.
  unfold members_of. rewrite filter_cons. simpl.
  destruct (String.eqb_spec (fold_ascii k) name); case_decide; done.
Qed.

Lemma members_of_app (name : string) (l1 l2 : list (string * json)) :
  members_of name (l1 ++ l2) = members_of name l1 ++ members_of name l2.
Proof. unfold members_of. now rewrite filter_app, fmap_app. Qed.

Lemma members_of_omitempty (name n v : string) :
  members_of name (omitempty n v)
  = if String.eqb (fold_ascii n) name
    then (if String.eqb v "" then [] else [JString (json_coerce v)])
    else [].
Proof.
  unfold omitempty. destruct (String.eqb v "").
  - now destruct (String.eqb (fold_ascii n) name).
  - now rewrite members_of_cons, members_of_nil.
Qed.

Lemma members_of_omitempty_ptr (name n : string) (c : option Z) :
  members_of name (omitempty_ptr n c)
  = if String.eqb (fold_ascii n) name
    then match c with Some x => [JInt x] | None => [] end
    else [].
Proof.
  unfold omitempty_ptr. destruct c.
  - now rewrite members_of_cons, members_of_nil.
  - now destruct (String.eqb (fold_ascii n) name).
Qed.

Ltac eval_keys :=
  repeat match goal with
         | |- context [String.eqb (fold_ascii ?a) ?b] =>
             let v := eval vm_compute in (String.eqb (fold_ascii a) b) in
             change (String.eqb (fold_ascii a) b) with v
         end.

Ltac members :=
  unfold row_members;
  rewrite ?members_of_app, ?members_of_cons, ?members_of_omitempty,
    ?members_of_omitempty_ptr, ?members_of_nil;
  eval_keys; cbv iota; rewrite ?app_nil_l, ?app_nil_r; reflexivity.

Lemma members_of_id (r : RequestHistory) (ts : string) :
  members_of "id" (row_members r ts) = [JInt (ID r)].
Proof. unfold omitted. members. Qed.

Lemma members_of_url (r : RequestHistory) (ts : string) :
  members_of "url" (row_members r ts) = [JString (json_coerce (URL r))].
Proof. unfold omitted. members. Qed.

Lemma members_of_method (r : RequestHistory) (ts : string) :
  members_of "method" (row_members r ts) = [JString (json_coerce (Method r))].
Proof. unfold omitted. members. Qed.

Lemma members_of_headers (r : RequestHistory) (ts : string) :
  members_of "headers" (row_members r ts) = omitted (Headers r).
Proof. unfold omitted. members. Qed.

Lemma members_of_body (r : RequestHistory) (ts : string) :
  members_of "body" (row_members r ts) = omitted (Body r).
Proof. unfold omitted. members. Qed.

Lemma members_of_timestamp (r : RequestHistory) (ts : string) :
  members_of "timestamp" (row_members r ts) = [JString ts].
Proof. unfold omitted. members. Qed.

Lemma members_of_response_status (r : RequestHistory) (ts : string) :
  members_of "response_status" (row_members r ts) = omitted (ResponseStatus r).
Proof. unfold omitted. members. Qed.

Lemma members_of_response_body (r : RequestHistory) (ts : string) :
  members_of "response_body" (row_members r ts) = omitted (ResponseBody r).
Proof. unfold omitted. members. Qed.

Lemma members_of_response_headers (r : RequestHistory) (ts : string) :
  members_of "response_headers" (row_members r ts) = omitted (ResponseHeaders r).
Proof. unfold omitted. members. Qed.

Lemma members_of_response_time_ms (r : RequestHistory) (ts : string) :
  members_of "response_time_ms" (row_members r ts) = [JInt (ResponseTimeMs r)].
Proof. unfold omitted. members. Qed.

Lemma members_of_response_size (r : RequestHistory) (ts : string) :
  members_of "response_size" (row_members r ts) = [JInt (ResponseSize r)].
Proof. unfold omitted. members. Qed.

Lemma members_of_is_favorite (r : RequestHistory) (ts : string) :
  members_of "is_favorite" (row_members r ts) = [JBool (IsFavorite r)].
Proof. unfold omitted. members. Qed.

Lemma members_of_collection_id (r : RequestHistory) (ts : string) :
  members_of "collection_id" (row_members r ts)
  = match CollectionID r with Some x => [JInt x] | None => [] end.
Proof. unfold omitted. members. Qed.

Lemma decode_omitted (v : string) :
  utf8_ValidString v = true →
  foldl (λ acc x, acc ≫= decode_string x) (Some ""%string) (omitted v) = Some v.
Proof.
  intros Hv. unfold omitted. destruct (String.eqb_spec v ""); [now subst|].
  simpl. now rewrite json_coerce_valid.
Qed.

(** A row whose text is valid UTF-8 is read back from its JSON object as
    it was written. *)
Lemma unmarshal_marshal (r : RequestHistory) (o : json) :
  time_codec_faithful →
  well_typed r → valid_text r →
  marshal_RequestHistory r = Some o →
  unmarshal_element o = Some (Some r).
Proof.
  intros Htime Hint Htext. unfold marshal_RequestHistory.
  destruct (time_MarshalJSON (Timestamp r)) as [ts|] eqn:Hts; [|discriminate].
  apply Htime in Hts. simpl. intros [= <-].
  unfold valid_text, well_typed, text_fields, int_fields in *.
  repeat match goal with
         | Hf : Forall _ (_ :: _) |- _ => apply Forall_cons in Hf as [? Hf]
         | Hf : Forall _ (_ ++ _) |- _ => apply Forall_app in Hf as [? Hf]
         end.
  unfold unmarshal_element, unmarshal_RequestHistory, decode_field.
  rewrite members_of_id, members_of_url, members_of_method, members_of_headers,
    members_of_body, members_of_timestamp, members_of_response_status,
    members_of_response_body, members_of_response_headers,
    members_of_response_time_ms, members_of_response_size,
    members_of_is_favorite, members_of_collection_id.
  rewrite !decode_omitted by done.
  cbn [foldl mbind option_bind decode_string decode_int decode_bool decode_time].
  rewrite !json_coerce_valid by done.
  repeat match goal with
         | Hi : is_int ?n = true |- context [is_int ?n] => rewrite Hi
         end.
  rewrite Hts.
  cbn [mbind option_bind fmap option_fmap option_map].
  destruct r as [id url method headers body stamp status rbody rheaders ms size fav [c|]];
    cbn [CollectionID] in *.
  - apply Forall_cons in Hint as [Hc _].
    cbn [foldl mbind option_bind decode_ptr_int]. rewrite Hc. reflexivity.
  - reflexivity.
Qed.

Lemma mapM_unmarshal_marshal (rows : list RequestHistory) (objs : list json) :
  time_codec_faithful →
  Forall well_typed rows → Forall valid_text rows →
  mapM marshal_RequestHistory rows = Some objs →
  mapM unmarshal_element objs = Some (Some <$> rows).
Proof.
  intros Htime Hint Htext Hm. apply mapM_Some in Hm. apply mapM_Some.
  induction Hm as [|r o rows objs Hr Hm IH]; [constructor|].
  apply Forall_cons in Hint as [? ?]. apply Forall_cons in Htext as [? ?].
  constructor; [now apply unmarshal_marshal|now apply IH].
Qed.

Lemma mapM_marshal_writable (rows : list RequestHistory) :
  Forall writable_time rows → is_Some (mapM marshal_RequestHistory rows).
Proof.
  intros Hw. apply mapM_is_Some. eapply Forall_impl; [exact Hw|].
  intros r [ts Hts]. unfold marshal_RequestHistory, compose.
  rewrite Hts. simpl. eauto.
Qed.

Lemma ExportHistory_writes (w : World) (filepath : string) (objs : list json) :
  clear_ahead 2 w →
  mapM marshal_RequestHistory (sql_select_history 10000 0 (tables w)) = Some objs →
  ∃ w', ExportHistory filepath w = (Ok tt, w')
        ∧ files w'
          = <[filepath := exported (sql_select_history 10000 0 (tables w)) objs]>
              (files w)
        ∧ tables w' = tables w.
Proof.
  intros Hc Hm. apply clear_ahead_S in Hc as [Hc1 Hc2].
  unfold ExportHistory, bind at 1. unfold GetRequestHistory, db_Query, bind at 1.
  rewrite io_call_pass by done.
  change (tables (set_faults (drop 1 (faults w)) w)) with (tables w).
  rewrite collect_rows_spec. unfold bind at 1, json_MarshalIndent, exported.
  destruct (sql_select_history 10000 0 (tables w)) as [|r rows] eqn:Hrows.
  - cbn [lift ret]. unfold writeFile, bind. rewrite io_call_pass.
    + eexists. split; [reflexivity|]. done.
    + apply Hc2. reflexivity.
  - rewrite Hm. cbn [lift ret]. unfold writeFile, bind. rewrite io_call_pass.
    + eexists. split; [reflexivity|]. done.
    + apply Hc2. reflexivity.
Qed.

Lemma json_Unmarshal_exported (rows : list RequestHistory) (objs : list json) :
  time_codec_faithful →
  Forall well_typed rows → Forall valid_text rows →
  mapM marshal_RequestHistory rows = Some objs →
  ∃ ptrs, json_Unmarshal (exported rows objs) = inr ptrs
          ∧ slice_elems ptrs = Some <$> rows.
Proof.
  intros Htime Hint Htext Hm. unfold exported, json_Unmarshal.
  destruct rows as [|r rows]; [by exists nil_slice|].
  rewrite (mapM_unmarshal_marshal (r :: rows) objs) by done.
  by eexists.
Qed.

Lemma without_ID_renumber (next : Z) (rows : list RequestHistory) :
  without_ID <$> renumber next rows = without_ID <$> rows.
Proof.
  revert next. induction rows as [|r rows IH]; intros; simpl; [done|].
  now rewrite IH.
Qed.

Lemma sql_select_history_all (s : Store) :
  Z.of_nat (length (request_history s)) ≤ 10000 →
  sql_select_history 10000 0 s = order_by newer_first (request_history s).
Proof.
  intros Hl. unfold sql_select_history, sql_offset.
  change (Z.to_nat 0) with 0%nat. rewrite drop_0.
  apply sql_limit_all. right. now rewrite order_by_length.
Qed.



(** C4, as the code has it. A store holds at most 10,000 history rows,
    all with valid UTF-8 text (and, as always, Go integers and writable
    timestamps). With the driver and the file system answering,
    [ExportHistory] writes a file from which [ImportHistory], run on a
    store without history rows whose connection enforces no foreign key
    the rows break, adds rows that are, identities apart, the rows of the
    first store. *)
Theorem export_import_roundtrip (w : World) (filepath : string) :
  time_codec_faithful →
  faults w = [] →
  Z.of_nat (length (request_history (tables w))) ≤ 10000 →
  Forall well_typed (request_history (tables w)) →
  Forall valid_text (request_history (tables w)) →
  Forall writable_time (request_history (tables w)) →
  ∃ w1 data,
    ExportHistory filepath w = (Ok tt, w1)
    ∧ files w1 !! filepath = Some data
    ∧ ∀ w0,
        files w0 !! filepath = Some data →
        request_history (tables w0) = [] →
        Forall (fk_ok w0) (request_history (tables w)) →
        faults w0 = [] →
        ∃ w2,
          ImportHistory filepath w0 = (Ok tt, w2)
          ∧ without_ID <$> request_history (tables w2)
            ≡ₚ without_ID <$> request_history (tables w).
Proof.
  intros Htime Hf Hlen Hint Htext Hw.
  set (rows := order_by newer_first (request_history (tables w))).
  assert (Hperm : rows ≡ₚ request_history (tables w)) by apply order_by_Permutation.
  assert (Hsel : sql_select_history 10000 0 (tables w) = rows)
    by now apply sql_select_history_all.
  destruct (mapM_marshal_writable rows) as [objs Hobjs]; [now rewrite Hperm|].
  destruct (ExportHistory_writes w filepath objs) as (w1 & Hrun & Hfiles & Ht).
  { now apply clear_ahead_no_faults. }
  { now rewrite Hsel. }
  exists w1, (exported rows objs). split; [exact Hrun|]. split.
  { now rewrite Hfiles, lookup_insert_eq, Hsel. }
  intros w0 Hfile Hempty Hfk Hf0.
  destruct (json_Unmarshal_exported rows objs) as (ptrs & Hdec & Hptrs);
    [exact Htime|now rewrite Hperm..|done|].
  assert (Hfk' : Forall (fk_ok w0) rows) by now rewrite Hperm.
  destruct (ImportHistory_succeeds w0 filepath _ ptrs rows Hfile Hdec Hptrs Hfk')
    as (w2 & Himp); [now apply clear_ahead_no_faults|].
  exists w2. split; [exact Himp|].
  destruct (ImportHistory_committed w0 w2 filepath _ ptrs rows Hfile Hdec Hptrs Hfk' Himp)
    as (Hrh & _).
  rewrite Hrh, Hempty, app_nil_l, without_ID_renumber. now rewrite Hperm.
Qed.
End CodecFacts.



Lemma export_import_roundtrip_witness :
  ∃ w1 data,
    @ExportHistory double_platform "backup.json" with_ten_rows = (Ok tt, w1)
    ∧ files w1 !! "backup.json" = Some data
    ∧ ∀ w0,
        files w0 !! "backup.json" = Some data →
        request_history (tables w0) = [] →
        Forall (fk_ok w0) (request_history (tables with_ten_rows)) →
        faults w0 = [] →
        ∃ w2,
          @ImportHistory double_platform "backup.json" w0 = (Ok tt, w2)
          ∧ without_ID <$> request_history (tables w2)
            ≡ₚ without_ID <$> request_history (tables with_ten_rows).
Proof.
  apply (@export_import_roundtrip double_platform with_ten_rows "backup.json").
  - exact double_time_codec_faithful.
  - reflexivity.
  - vm_compute. discriminate.
  - unfold well_typed. apply (bool_decide_unpack _). vm_compute. exact I.
  - unfold valid_text. apply (bool_decide_unpack _). vm_compute. exact I.
  - apply Forall_forall. intros r _. unfold writable_time. simpl. eauto.
Defined.

(** C4, as stated, fails on a store that holds a response body with a byte
    that is not UTF-8: a GET of a PNG image is recorded with the body as
    received, the export writes U+FFFD for the byte 0x89, and after the
    import into an empty database file the body is another string. *)
Lemma export_import_replaces_invalid_bytes :
  fst (@roundtrip_scenario double_platform "https://example.test/logo.png" power_on)
  = Ok ([png_signature], [replacement_char +:+ "PNG"])
  ∧ png_signature ≠ (replacement_char +:+ "PNG")%string.
Proof. split; [vm_compute; reflexivity|discriminate]. Qed.

(** ** The request executor (C5, C6) *)

Section ClientFacts.
Context `{Platform}.



End ClientFacts.


(** The tests of the specification, on the stub server. *)
Example executeRequest_200 :
  ∃ info w', @executeRequest double_platform "GET" "https://example.test/200" power_on
             = (Ok info, w')
             ∧ ri_Status info = "200 OK" ∧ ri_Body info = "ok" ∧ ri_Size info = 2
             ∧ ri_ResponseTime info = 6000000.
Proof. eexists _, _. vm_compute. done. Qed.

Example executeRequest_404 :
  ∃ info w', @executeRequest double_platform "GET" "https://example.test/404" power_on
             = (Ok info, w')
             ∧ ri_Status info = "404 Not Found" ∧ ri_Body info = "not found".
Proof. eexists _, _. vm_compute. done. Qed.

Example executeRequest_timeout :
  let '(r, w') :=
    @executeRequest double_platform "GET" "https://example.test/timeout" power_on in
  r = Err timeout_error ∧ now w' = now power_on + 30000000000.
Proof. vm_compute. done. Qed.

(** ** Response headers (C6) *)

Lemma header_of_wire_snoc (wire : list (string * string)) (kv : string * string) :
  header_of_wire (wire ++ [kv]) = Header_Add (header_of_wire wire) kv.1 kv.2.
Proof. unfold header_of_wire. now rewrite foldl_app. Qed.

(** The map holds, under each key, the values received for it, in the
    order received. *)
Lemma header_of_wire_lookup (wire : list (string * string)) (k : string) :
  default [] (header_of_wire wire !! k) = (filter (λ kv, kv.1 = k) wire).*2.
Proof.
  induction wire as [|[k' v] wire IH] using rev_ind; [done|].
  rewrite header_of_wire_snoc, filter_app, fmap_app. unfold Header_Add. simpl.
  rewrite lookup_insert. case_decide as Hk.
  - subst k'. simpl. rewrite IH. rewrite filter_cons_True by done. done.
  - rewrite IH. rewrite filter_cons_False by done. simpl. now rewrite app_nil_r.
Qed.







Section HeaderTheorem.
Context `{Platform}.

End HeaderTheorem.



Lemma cookie_a_then_b_app (l1 l2 : list ResponseHeader) :
  cookie_a_then_b l1 = true → cookie_a_then_b l2 = true →
  cookie_a_then_b (l1 ++ l2) = true.
Proof.
  intros H1 H2. induction l1 as [|p l1 IH]; [done|].
  simpl in *. apply andb_true_iff in H1 as [Hp H1].
  rewrite IH by done. rewrite andb_true_r.
  destruct (String.eqb (hdr_Value p) "a=1"); [|done].
  destruct l1; [discriminate|done].
Qed.

(** Whatever order [range] chooses, the pairs built from the header lines
    of [/200] are not in the order received: in every block the [a=1]
    cookie is directly followed by the [b=2] cookie, and on the wire it is
    followed by the [Date] line. *)
Lemma range_pairs_never_wire_order (order : list string) :
  range_pairs order (header_of_wire wire_200) ≠ to_pair <$> wire_200.
Proof.
  assert (Hall : cookie_a_then_b (range_pairs order (header_of_wire wire_200)) = true).
  { unfold range_pairs. induction order as [|k order IH]; [done|].
    rewrite bind_cons. apply cookie_a_then_b_app; [|exact IH].
    rewrite header_of_wire_lookup. unfold wire_200.
    rewrite !filter_cons, filter_nil. simpl.
    repeat case_decide; subst; try discriminate; reflexivity. }
  intros Heq. rewrite Heq in Hall. discriminate.
Qed.

(** ** The history recorder (C7) *)

Section RecorderFacts.
Context `{Platform}.


End RecorderFacts.

(** The driver refuses the save of the entry: the submit flow ends without
    an error, the failure is on standard output only. *)
Example submit_with_failing_store :
  let w := set_faults [Some "database is locked"] power_on in
  let '(r, w') := @submitRequest double_platform "https://example.test/404" "GET" w in
  r = Ok tt
  ∧ request_history (tables w') = []
  ∧ stdout w' = ["Failed to save request to history: database is locked" +:+ newline]
  ∧ statusLabel (ui w') = "Status: 404 Not Found".
Proof. vm_compute. done. Qed.

(** A transport failure is recorded with the sentinel status. *)
Example submit_timeout_recorded :
  let '(r, w') :=
    @submitRequest double_platform "https://example.test/timeout" "GET" power_on in
  r = Ok tt
  ∧ request_history (tables w')
    = [{| ID := 1; URL := "https://example.test/timeout"; Method := "GET";
          Headers := ""; Body := ""; Timestamp := now power_on + 30000000000;
          ResponseStatus := "Error"; ResponseBody := ""; ResponseHeaders := "";
          ResponseTimeMs := 0; ResponseSize := 0; IsFavorite := false;
          CollectionID := None |}].
Proof. vm_compute. done. Qed.
